(** * Mueller-matrix model of a dual-channel polarimeter

    A shallow embedding of the numerical core of [manual_mm.py] (the purely
    numeric variant) and of [final_offline_mm.py] / [astropy_mm.py] (the
    variants built on the pyMuellerMat library), over exact real numbers:
    Python floats are read as elements of [R], [math.cos], [math.sin],
    [math.pi] as [cos], [sin], [PI].

    numpy arrays are modelled by their shape:
    - a 4-vector / a [(4,1)] column is a [vec4];
    - a [(4,4)] array is a [mat4], four rows;
    - an [(n,4)] array is a list of rows, [matN4];
    - a [(4,n)] array is four rows that are lists, [mat4N];
    - an [(n,1)] column is a list of reals. *)

From Stdlib Require Import Reals Lra List Lia Arith Permutation.
Import ListNotations.

Open Scope R_scope.

(** ** Four-component containers *)

Record quad (A : Type) : Type := Quad { q0 : A; q1 : A; q2 : A; q3 : A }.
Arguments Quad {A} _ _ _ _.
Arguments q0 {A} _.
Arguments q1 {A} _.
Arguments q2 {A} _.
Arguments q3 {A} _.

Definition vec4 : Type := quad R.
Definition mat4 : Type := quad vec4.
Definition matN4 : Type := list vec4.
Definition mat4N : Type := quad (list R).

Inductive idx4 : Type := I0 | I1 | I2 | I3.

Definition get {A : Type} (q : quad A) (i : idx4) : A :=
  match i with
  | I0 => q0 q
  | I1 => q1 q
  | I2 => q2 q
  | I3 => q3 q
  end.

Definition tab {A : Type} (f : idx4 -> A) : quad A :=
  Quad (f I0) (f I1) (f I2) (f I3).

Definition qmap {A B : Type} (f : A -> B) (q : quad A) : quad B :=
  Quad (f (q0 q)) (f (q1 q)) (f (q2 q)) (f (q3 q)).

(** ** Linear algebra on the shapes above *)

(** Inner product of two 4-vectors. *)
Definition dot4 (u v : vec4) : R :=
  q0 u * q0 v + q1 u * q1 v + q2 u * q2 v + q3 u * q3 v.

(** Inner product of two sequences of the same length. *)
Fixpoint dot (xs ys : list R) : R :=
  match xs, ys with
  | x :: xs', y :: ys' => x * y + dot xs' ys'
  | _, _ => 0
  end.

Definition col (M : mat4) (j : idx4) : vec4 := qmap (fun r => get r j) M.

(** [M @ v] for a [(4,4)] array and a [(4,1)] column. *)
Definition matvec (M : mat4) (v : vec4) : vec4 := qmap (fun r => dot4 r v) M.

(** [A @ B] for two [(4,4)] arrays. *)
Definition matmul (A B : mat4) : mat4 :=
  qmap (fun r => tab (fun j => dot4 r (col B j))) A.

(** [c * M], numpy's broadcast of a scalar over an array. *)
Definition vscale (c : R) (v : vec4) : vec4 := qmap (Rmult c) v.
Definition scale (c : R) (M : mat4) : mat4 := qmap (vscale c) M.

Definition identity : mat4 :=
  Quad (Quad 1 0 0 0) (Quad 0 1 0 0) (Quad 0 0 1 0) (Quad 0 0 0 1).

(** [np.transpose] of an [(n,4)] array. *)
Definition transpose (A : matN4) : mat4N :=
  Quad (map q0 A) (map q1 A) (map q2 A) (map q3 A).

(** The columns of a [(4,n)] array, read off the four rows in step. *)
Fixpoint columns (a b c d : list R) : list vec4 :=
  match a, b, c, d with
  | x :: a', y :: b', z :: c', w :: d' => Quad x y z w :: columns a' b' c' d'
  | _, _, _, _ => []
  end.

Definition cols_of (M : mat4N) : list vec4 :=
  columns (q0 M) (q1 M) (q2 M) (q3 M).

(** [At @ A] for a [(4,n)] and an [(n,4)] array: a [(4,4)] array. *)
Definition matmul_4N_N4 (At : mat4N) (A : matN4) : mat4 :=
  qmap (fun r => Quad (dot r (map q0 A)) (dot r (map q1 A))
                      (dot r (map q2 A)) (dot r (map q3 A))) At.

(** [G @ At] for a [(4,4)] and a [(4,n)] array: a [(4,n)] array. *)
Definition matmul_44_4N (G : mat4) (At : mat4N) : mat4N :=
  transpose (map (matvec G) (cols_of At)).

(** [M @ b] for a [(4,n)] array and an [(n,1)] column: a [(4,1)] column. *)
Definition matvec_4N (M : mat4N) (b : list R) : vec4 :=
  qmap (fun r => dot r b) M.

(** *** Determinant, adjugate and [numpy.linalg.inv] *)

Definition det2 (a b c d : R) : R := a * d - b * c.

Definition det3 (a b c d e f g h i : R) : R :=
  a * det2 e f h i - b * det2 d f g i + c * det2 d e g h.

(** The three indices other than [i], in increasing order. *)
Definition others (i : idx4) : idx4 * idx4 * idx4 :=
  match i with
  | I0 => (I1, I2, I3)
  | I1 => (I0, I2, I3)
  | I2 => (I0, I1, I3)
  | I3 => (I0, I1, I2)
  end.

Definition ent (M : mat4) (i j : idx4) : R := get (get M i) j.

Definition minor (M : mat4) (i j : idx4) : R :=
  let '(a, b, c) := others i in
  let '(x, y, z) := others j in
  det3 (ent M a x) (ent M a y) (ent M a z)
       (ent M b x) (ent M b y) (ent M b z)
       (ent M c x) (ent M c y) (ent M c z).

Definition parity (i : idx4) : bool :=
  match i with I0 | I2 => true | I1 | I3 => false end.

Definition cofactor (M : mat4) (i j : idx4) : R :=
  if Bool.eqb (parity i) (parity j) then minor M i j else - minor M i j.

Definition det (M : mat4) : R :=
  ent M I0 I0 * cofactor M I0 I0 + ent M I0 I1 * cofactor M I0 I1
  + ent M I0 I2 * cofactor M I0 I2 + ent M I0 I3 * cofactor M I0 I3.

Definition adjugate (M : mat4) : mat4 :=
  tab (fun i => tab (fun j => cofactor M j i)).

(** [numpy.linalg.inv] on a [(4,4)] array, over exact reals: the inverse when
    there is one, [None] for the [LinAlgError] raised on a singular matrix.
    This is the exact-arithmetic reading; in floating point the routine
    raises only when its LU factorisation meets a pivot that is exactly zero,
    see [inv_like] below. *)
Definition inv (M : mat4) : option mat4 :=
  if Req_dec_T (det M) 0 then None else Some (scale (/ det M) (adjugate M)).

(** A matrix with a column of zeros: the LU factorisation then meets a pivot
    that is exactly zero, whatever the rounding of the other entries. *)
Definition is_zero (x : R) : bool := if Req_dec_T x 0 then true else false.

Definition zero_col (M : mat4) (j : idx4) : bool :=
  is_zero (ent M I0 j) && is_zero (ent M I1 j)
  && is_zero (ent M I2 j) && is_zero (ent M I3 j).

Definition has_zero_col (M : mat4) : bool :=
  zero_col M I0 || zero_col M I1 || zero_col M I2 || zero_col M I3.

(** What is certain of [numpy.linalg.inv] whatever the rounding: on a regular
    matrix it returns the inverse, and on a matrix with a column of zeros it
    raises.  On a singular matrix without such a column rounding decides
    whether it raises or returns some matrix. *)
Definition inv_like (np_inv : mat4 -> option mat4) : Prop :=
  (forall M, det M <> 0 -> np_inv M = inv M)
  /\ (forall M, has_zero_col M = true -> np_inv M = None).


(** [math.radians] / [np.radians] and [math.degrees] / [np.degrees]. *)
Definition radians (x : R) : R := x * (PI / 180).
Definition degrees (x : R) : R := x * (180 / PI).

(** ** Measurement samples

    A sample is the Python list [[I_1, I_2, hwp, sky]]: positive beam,
    negative beam, HWP angle, parallactic angle. *)

Definition sample : Type := vec4.
Definition no_sample : sample := Quad 0 0 0 0.

(** The least-squares problem as the specification words it: one design row
    per beam and per sample, ['o'] first, the measured intensities in the same
    order, and the normal-equations solution [(At A)^-1 (At b)]. *)

Definition design_matrix (row_o row_e : R -> R -> vec4) (values : list sample)
  : matN4 :=
  flat_map (fun v => [row_o (q2 v) (q3 v); row_e (q2 v) (q3 v)]) values.

Definition measured (values : list sample) : list R :=
  flat_map (fun v => [q0 v; q1 v]) values.

Definition normal_matrix (A : matN4) : mat4 := matmul_4N_N4 (transpose A) A.

Definition normal_equations (A : matN4) (b : list R) : option vec4 :=
  match inv (normal_matrix A) with
  | Some G => Some (matvec G (matvec_4N (transpose A) b))
  | None => None
  end.

(** ** The purely numeric variant, [manual_mm.py] *)

Module Manual.

(** [m(theta, phi)] *)
Definition m (theta phi : R) : mat4 :=
  Quad (Quad 1 (- cos (2 * theta)) 0 0)
       (Quad (- cos (2 * theta)) 1 0 0)
       (Quad 0 0 (sin (2 * theta) * cos phi) (sin (2 * theta) * sin phi))
       (Quad 0 0 (- sin (2 * theta) * sin theta) (sin (2 * theta) * cos phi)).

(** [t(angle)] *)
Definition t (angle : R) : mat4 :=
  Quad (Quad 1 0 0 0)
       (Quad 0 (cos (4 * angle)) (sin (4 * angle)) 0)
       (Quad 0 (- sin (4 * angle)) (cos (4 * angle)) 0)
       (Quad 0 0 0 1).

Definition m_woll_pos : mat4 := m (PI / 2) 0.
Definition m_woll_neg : mat4 := m PI 0.

(** [wollaston(stokes)]: the list [[pos, neg]] of two 4-vectors. *)
Definition wollaston (stokes : vec4) : vec4 * vec4 :=
  let pos := vscale 0.5 (matvec m_woll_pos stokes) in
  let neg := vscale 0.5 (matvec m_woll_neg stokes) in
  (pos, neg).

(** One pass of the [for j in range(len(values))] loop of [on_sky]; the state
    is the pair of arrays [(i, m_system)], grown by [np.append]. *)
Definition on_sky_body (values : list sample) (st : list R * matN4) (j : nat)
  : list R * matN4 :=
  let '(i, m_system) := st in
  let hwp := q2 (nth j values no_sample) in
  let sky := q3 (nth j values no_sample) in
  let row1 := scale 0.5 (matmul (matmul m_woll_pos (t hwp)) (t sky)) in
  let row2 := scale 0.5 (matmul (matmul m_woll_neg (t hwp)) (t sky)) in
  let i := i ++ [q0 (nth j values no_sample)] in
  let m_system := m_system ++ [q0 row1] in
  let i := i ++ [q1 (nth j values no_sample)] in
  let m_system := m_system ++ [q0 row2] in
  (i, m_system).

Definition on_sky_loop (values : list sample) : list R * matN4 :=
  fold_left (on_sky_body values) (seq 0 (length values)) ([], []).

(** [on_sky(values)]: [None] stands for the [LinAlgError] of [inv]. *)
Definition on_sky (values : list sample) : option vec4 :=
  let '(i, m_system) := on_sky_loop values in
  match inv (matmul_4N_N4 (transpose m_system) m_system) with
  | Some G => Some (matvec_4N (matmul_44_4N G (transpose m_system)) i)
  | None => None
  end.

(** [on_sky(values)] with the inversion routine as a parameter. *)
Definition on_sky_with (np_inv : mat4 -> option mat4) (values : list sample)
  : option vec4 :=
  let '(i, m_system) := on_sky_loop values in
  match np_inv (matmul_4N_N4 (transpose m_system) m_system) with
  | Some G => Some (matvec_4N (matmul_44_4N G (transpose m_system)) i)
  | None => None
  end.

(** What [main] appends to [values] in branch [b], from the two intensities
    and the two angles typed in degrees. *)
Definition main_sample (I_1 I_2 hwp_deg sky_deg : R) : sample :=
  Quad I_1 I_2 (radians hwp_deg) (radians sky_deg).

(** The first rows that [on_sky] puts in [m_system]. *)
Definition row_o (hwp sky : R) : vec4 :=
  q0 (scale 0.5 (matmul (matmul m_woll_pos (t hwp)) (t sky))).
Definition row_e (hwp sky : R) : vec4 :=
  q0 (scale 0.5 (matmul (matmul m_woll_neg (t hwp)) (t sky))).

(** The loop body as a function of the sample [values[j]] itself. *)
Definition on_sky_step (st : list R * matN4) (v : sample) : list R * matN4 :=
  (fst st ++ [q0 v] ++ [q1 v],
   snd st ++ [row_o (q2 v) (q3 v)] ++ [row_e (q2 v) (q3 v)]).

(** The forward model of the round trip: the two beam intensities of the
    Stokes vector [s] seen through [t(hwp)] and [t(pa)], packed as a sample. *)
Definition forward (s : vec4) (hwp pa : R) : sample :=
  Quad (q0 (matvec (matmul (matmul (scale 0.5 m_woll_pos) (t hwp)) (t pa)) s))
       (q0 (matvec (matmul (matmul (scale 0.5 m_woll_neg) (t hwp)) (t pa)) s))
       hwp pa.

(** One pass of the loop of [plot_wollaston] at [angle]: the row
    [[degrees(angle), I1[0] - I2[0]]] appended to [data]. *)
Definition plot_wollaston_row (stokes : vec4) (angle : R) : R * R :=
  let I1 := vscale 0.5 (matvec (matmul m_woll_pos (t angle)) stokes) in
  let I2 := vscale 0.5 (matvec (matmul m_woll_neg (t angle)) stokes) in
  (degrees angle, q0 I1 - q0 I2).

(** The array [data] that [plot_wollaston] plots, from the points [arange]
    of [np.arange(0, 2 * math.pi, 0.001)]. *)
Definition plot_wollaston_data (stokes : vec4) (arange : list R)
  : list (R * R) :=
  fold_left (fun data angle => data ++ [plot_wollaston_row stokes angle])
    arange [].

End Manual.

(** ** The pyMuellerMat variants, [final_offline_mm.py] and [astropy_mm.py]

    pyMuellerMat is an external library: the matrix that
    [SystemMuellerMatrix.evaluate()] computes from the current property
    dictionary is a parameter of every definition that calls it. *)

Module Offline.

(** The ['beam'] property of the Wollaston prism, ['o'] or ['e']. *)
Inductive beam : Type := o | e.

(** The [master_property_dict] of the three-element system
    [[WollastonPrism, HWP, Rotator]] that [wollaston], [plot_wollaston] and
    [on_sky] build. *)
Record props : Type := Props {
  WollastonPrism_beam : beam;
  HalfwaveRetarder_theta : R;
  Rotator_pa : R
}.

Definition set_beam (b : beam) (d : props) : props :=
  Props b (HalfwaveRetarder_theta d) (Rotator_pa d).
Definition set_theta (x : R) (d : props) : props :=
  Props (WollastonPrism_beam d) x (Rotator_pa d).
Definition set_pa (x : R) (d : props) : props :=
  Props (WollastonPrism_beam d) (HalfwaveRetarder_theta d) x.

(** The property dictionaries behind [master_sys_mm], the five-element system
    [[WollastonPrism, derotator, HWP, m3, Rotator]]; [derotator.properties]
    and [m3.properties] are the same dictionaries, reached by another name. *)
Record master_props : Type := MasterProps {
  master_beam : beam;
  derotator_theta : R;
  derotator_epsilon : R;
  derotator_phi : R;
  master_hwp_theta : R;
  m3_theta : R;
  m3_epsilon : R;
  m3_phi : R;
  master_pa : R
}.

Section WithLibrary.

(** [sys_mm.evaluate()] for the three-element system, and the dictionary a
    fresh system starts with. *)
Variable evaluate : props -> mat4.
Variable fresh : props.

(** [master_sys_mm.evaluate()]. *)
Variable master_evaluate : master_props -> mat4.

(** State of the loop of [on_sky]: the property dictionary of [sys_mm] and the
    arrays [i] and [m_system]. *)
Definition on_sky_state : Type := props * list R * matN4.

Definition on_sky_body (values : list sample) (st : on_sky_state) (j : nat)
  : on_sky_state :=
  let '(sys_mm, i, m_system) := st in
  let sys_mm := set_theta (q2 (nth j values no_sample)) sys_mm in
  let sys_mm := set_pa (q3 (nth j values no_sample)) sys_mm in
  let sys_mm := set_beam o sys_mm in
  let row1 := evaluate sys_mm in
  let sys_mm := set_beam e sys_mm in
  let row2 := evaluate sys_mm in
  let i := i ++ [q0 (nth j values no_sample)] in
  let m_system := m_system ++ [q0 row1] in
  let i := i ++ [q1 (nth j values no_sample)] in
  let m_system := m_system ++ [q0 row2] in
  (sys_mm, i, m_system).

Definition on_sky_loop (values : list sample) : on_sky_state :=
  fold_left (on_sky_body values) (seq 0 (length values)) (fresh, [], []).

Definition on_sky (values : list sample) : option vec4 :=
  let '(_, i, m_system) := on_sky_loop values in
  match inv (matmul_4N_N4 (transpose m_system) m_system) with
  | Some G => Some (matvec_4N (matmul_44_4N G (transpose m_system)) i)
  | None => None
  end.

(** [on_sky(values)] with the inversion routine as a parameter. *)
Definition on_sky_with (np_inv : mat4 -> option mat4) (values : list sample)
  : option vec4 :=
  let '(_, i, m_system) := on_sky_loop values in
  match np_inv (matmul_4N_N4 (transpose m_system) m_system) with
  | Some G => Some (matvec_4N (matmul_44_4N G (transpose m_system)) i)
  | None => None
  end.

(** The first rows that [on_sky] puts in [m_system]. *)
Definition row_o (hwp pa : R) : vec4 := q0 (evaluate (Props o hwp pa)).
Definition row_e (hwp pa : R) : vec4 := q0 (evaluate (Props e hwp pa)).

(** The loop body as a function of the sample [values[j]] itself. *)
Definition on_sky_step (st : on_sky_state) (v : sample) : on_sky_state :=
  (Props e (q2 v) (q3 v),
   snd (fst st) ++ [q0 v] ++ [q1 v],
   snd st ++ [row_o (q2 v) (q3 v)] ++ [row_e (q2 v) (q3 v)]).

(** What [main] appends to [values] in branch [b]. *)
Definition main_sample (I_1 I_2 hwp_deg sky_deg : R) : sample :=
  Quad I_1 I_2 (radians hwp_deg) (radians sky_deg).

(** One pass of the loop of [plot_wollaston] at [angle], a point of
    [np.arange(0, 2 * np.pi, 0.001)]: the dictionary afterwards and the row
    appended to [data]. *)
Definition plot_wollaston_body (stokes : vec4) (sys_mm : props) (angle : R)
  : props * (R * R) :=
  let sys_mm := set_theta (degrees angle) sys_mm in
  let sys_mm := set_beam o sys_mm in
  let I1 := matvec (evaluate sys_mm) stokes in
  let sys_mm := set_beam e sys_mm in
  let I2 := matvec (evaluate sys_mm) stokes in
  (sys_mm, (degrees angle, q0 I1 - q0 I2)).

(** *** The calibration targets (module level) *)

Definition keck : R := radians 19.8260.

Definition ra : list (R * R * R) :=
  [(4, 14, 50.2); (4, 13, 47.3); (4, 22, 53.3)].
Definition dec : list (R * R * R) :=
  [(37, 35, 54); (37, 9, 32); (27, 30, 18)].

Definition rad : list R :=
  map (fun '(h, mi, s) => radians (15 * (h + mi / 60 + s / 3600))) ra.
Definition decd : list R :=
  map (fun '(d, mi, s) => radians (d + mi / 60 + s / 3600)) dec.

Definition p : list R := [0.0061; 0.0142; 0.0157].

(** Parallactic angle and altitude of each target, in degrees, as [system]
    and [fit_model] compute them. *)
Definition angles : list R :=
  map (fun '(r, d) =>
         degrees (atan (sin r / (cos d * tan keck - sin d * cos r))))
      (combine rad decd).
Definition altitudes : list R :=
  map (fun '(r, d) =>
         degrees (asin (sin keck * sin d + cos keck * cos d * cos r)))
      (combine rad decd).

(** [np.repeat(a, 2, axis=0)] *)
Definition repeat2 {A : Type} (a : list A) : list A :=
  flat_map (fun x => [x; x]) a.

(** [zip] of three sequences stops with the shortest. *)
Fixpoint zip3 {A B C : Type} (a : list A) (b : list B) (c : list C)
  : list (A * B * C) :=
  match a, b, c with
  | x :: a', y :: b', z :: c' => (x, y, z) :: zip3 a' b' c'
  | _, _, _ => []
  end.

Definition enumerate {A : Type} (x : list A) : list (nat * A) :=
  combine (seq 0 (length x)) x.

(** One pass of the loop of [system]: the dictionaries and the list [I]
    (here [Is]). *)
Definition system_body (st : master_props * list R)
  (it : nat * vec4 * R * R) : master_props * list R :=
  let '(g, Is) := st in
  let '(n, stokes, pa, alt) := it in
  let g := MasterProps (master_beam g) (derotator_theta g)
             (derotator_epsilon g) (derotator_phi g) (master_hwp_theta g)
             alt (m3_epsilon g) (m3_phi g) pa in
  let g := MasterProps (if Nat.eqb (n mod 2) 0 then o else e)
             (derotator_theta g) (derotator_epsilon g) (derotator_phi g)
             (master_hwp_theta g) (m3_theta g) (m3_epsilon g) (m3_phi g)
             (master_pa g) in
  (g, Is ++ [q0 (matvec (master_evaluate g) stokes)]).

(** [system(x, dd, dr, md, mr)] run from the dictionaries [g]: the
    dictionaries it leaves and the list [I] it returns. *)
Definition system_run (g : master_props) (x : list vec4) (dd dr md mr : R)
  : master_props * list R :=
  let g := MasterProps (master_beam g) (derotator_theta g) dd dr
             (master_hwp_theta g) (m3_theta g) md mr (master_pa g) in
  fold_left system_body
    (zip3 (enumerate x) (repeat2 angles) (repeat2 altitudes)) (g, []).

Definition system (g : master_props) (x : list vec4) (dd dr md mr : R)
  : list R :=
  snd (system_run g x dd dr md mr).

End WithLibrary.

(** *** Pieces of [fit_model] *)

Definition derotator_d_i : R := 0.9662.
Definition derotator_r_i : R := 186.6.
Definition m3_d_i : R := 0.9761.
Definition m3_r_i : R := 186.6.

Definition hwp : list R := [0; 22.5; 45; 60].

(** The list stored in [stokes_i[str(theta)]] by one pass of the loop over
    [hwp]. *)
Definition initial_stokes (theta : R) : list vec4 :=
  let q := map (fun pk => pk * cos (2 * theta)) p in
  let u := map (fun pk => pk * sin (2 * theta)) p in
  map (fun '(x, y) => Quad 1 x y 0) (combine q u).

(** The dictionary [stokes_i] when the loop is over, in insertion order. *)
Definition stokes_i : list (R * list vec4) :=
  map (fun theta => (theta, initial_stokes theta)) hwp.

(** [np.mean] of a column. *)
Definition mean (xs : list R) : R :=
  fold_right Rplus 0 xs / INR (length xs).

(** The array [error] that [fit_model] prints, from the array [estimate] of
    the per-HWP-angle results of [curve_fit]. *)
Definition fit_error (estimate : list vec4) : vec4 :=
  let derotator_d_f := mean (map q0 estimate) in
  let derotator_r_f := mean (map q1 estimate) in
  let m3_d_f := mean (map q2 estimate) in
  let m3_r_f := mean (map q3 estimate) in
  qmap Rabs
    (Quad ((derotator_d_f - derotator_d_i) / derotator_d_i * 100)
          ((derotator_r_f - derotator_r_i) / derotator_r_f * 100)
          ((m3_d_f - m3_d_i) / m3_d_i * 100)
          ((m3_r_f - m3_r_i) / m3_r_i * 100)).

(** The means that [fit_model] prints as the estimated values. *)
Definition fit_means (estimate : list vec4) : vec4 :=
  Quad (mean (map q0 estimate)) (mean (map q1 estimate))
       (mean (map q2 estimate)) (mean (map q3 estimate)).

(** Four per-angle results of [curve_fit], inside its bounds, whose derotator
    retardance is half the true one. *)
Definition half_retardance_estimate : list vec4 :=
  [Quad 0.9662 93.3 0.9761 186.6; Quad 0.9662 93.3 0.9761 186.6;
   Quad 0.9662 93.3 0.9761 186.6; Quad 0.9662 93.3 0.9761 186.6].

(** The parallactic angle, in degrees, of a target at hour angle [ha] and
    declination [dec] (radians) seen from Keck, as [track_plot], [system] and
    [fit_model] compute it: [np.degrees(np.arctan(np.sin(ha) / den))].  Where
    the denominator vanishes and the numerator does not, numpy's quotient is
    infinite, of the sign of the numerator and of the floating-point zero,
    and the arctangent is a right angle of either sign; where both vanish the
    quotient is nan and there is no angle. *)
Definition parallactic_den (ha dec : R) : R :=
  cos dec * tan keck - sin dec * cos ha.

Inductive parallactic (ha dec : R) : R -> Prop :=
| parallactic_finite :
    parallactic_den ha dec <> 0 ->
    parallactic ha dec (degrees (atan (sin ha / parallactic_den ha dec)))
| parallactic_plus :
    parallactic_den ha dec = 0 -> sin ha <> 0 -> parallactic ha dec 90
| parallactic_minus :
    parallactic_den ha dec = 0 -> sin ha <> 0 -> parallactic ha dec (-90).

(** The altitude, in degrees, by the same three functions. *)
Definition altitude (ha dec : R) : R :=
  degrees (asin (sin keck * sin dec + cos keck * cos dec * cos ha)).

Section FitModel.

Variable master_evaluate : master_props -> mat4.

(** One pass of the loop that fills [stokes_f[str(theta)]]: the two noiseless
    beam intensities of one target. *)
Definition final_stokes_body (st : master_props * list R)
  (it : R * R * vec4) : master_props * list R :=
  let '(g, stokes_f) := st in
  let '(pa, alt, stokes) := it in
  let g := MasterProps (master_beam g) (derotator_theta g)
             (derotator_epsilon g) (derotator_phi g) (master_hwp_theta g)
             alt (m3_epsilon g) (m3_phi g) pa in
  let g := MasterProps o (derotator_theta g) (derotator_epsilon g)
             (derotator_phi g) (master_hwp_theta g) (m3_theta g)
             (m3_epsilon g) (m3_phi g) (master_pa g) in
  let I1 := matvec (master_evaluate g) stokes in
  let g := MasterProps e (derotator_theta g) (derotator_epsilon g)
             (derotator_phi g) (master_hwp_theta g) (m3_theta g)
             (m3_epsilon g) (m3_phi g) (master_pa g) in
  let I2 := matvec (master_evaluate g) stokes in
  (g, stokes_f ++ [q0 I1; q0 I2]).

(** One pass of the loop over [hwp] up to the noiseless intensities: the
    system is reset to the original parameters, the HWP is set to [theta] and
    every target is observed in both beams. *)
Definition final_stokes (g : master_props) (theta : R)
  : master_props * list R :=
  let g := MasterProps (master_beam g) (derotator_theta g) derotator_d_i
             derotator_r_i (master_hwp_theta g) (m3_theta g) m3_d_i m3_r_i
             (master_pa g) in
  let g := MasterProps (master_beam g) (derotator_theta g)
             (derotator_epsilon g) (derotator_phi g) theta (m3_theta g)
             (m3_epsilon g) (m3_phi g) (master_pa g) in
  fold_left final_stokes_body (zip3 angles altitudes (initial_stokes theta))
    (g, []).

End FitModel.

End Offline.

(** The sum of squared residuals [|A x - b|^2] of a least-squares problem. *)
Definition residual (A : matN4) (b : list R) (x : vec4) : R :=
  fold_right (fun rb acc => (dot4 (fst rb) x - snd rb) ^ 2 + acc) 0
    (combine A b).

(** A stand-in for [evaluate] with a regular design: at [theta = 0] the two
    beams read [I] and [Q], at [theta = 1] they read [U] and [V]. *)
Definition toy_evaluate (d : Offline.props) : mat4 :=
  let th := Offline.HalfwaveRetarder_theta d in
  match Offline.WollastonPrism_beam d with
  | Offline.o => Quad (Quad (1 - th) 0 th 0) (Quad 0 0 0 0) (Quad 0 0 0 0)
                      (Quad 0 0 0 0)
  | Offline.e => Quad (Quad 0 (1 - th) 0 th) (Quad 0 0 0 0) (Quad 0 0 0 0)
                      (Quad 0 0 0 0)
  end.
Definition toy_values : list sample := [Quad 1 0.1 0 0; Quad 0.05 0 1 0].


(** The round trip of the specification: the Stokes vector [(1, 0.1, 0.05, 0)]
    observed at HWP angles 0, 45, 22.5 and 67.5 degrees, parallactic angle 0. *)
Definition round_trip_stokes : vec4 := Quad 1 0.1 0.05 0.
Definition round_trip_samples : list sample :=
  map (fun d => Manual.forward round_trip_stokes (radians d) (radians 0))
      [0; 45; 22.5; 67.5].

(** The difference of two 4-vectors. *)
Definition vsub (y x : vec4) : vec4 :=
  Quad (q0 y - q0 x) (q1 y - q1 x) (q2 y - q2 x) (q3 y - q3 x).

(** The sum of [h] over a list. *)
Definition sum_over {A : Type} (h : A -> R) (l : list A) : R :=
  fold_right (fun v acc => h v + acc) 0 l.

Section ClosedForms.

Variable master_evaluate : Offline.master_props -> mat4.

(** The intensity that [system] appends for item [n] of [x], as a function of
    the two properties of the dictionaries that [system] never writes. *)
Definition system_term (dth hth dd dr md mr : R) (it : nat * vec4 * R * R)
  : R :=
  let '(n, stokes, pa, alt) := it in
  q0 (matvec (master_evaluate
                (Offline.MasterProps
                   (if Nat.eqb (n mod 2) 0 then Offline.o else Offline.e)
                   dth dd dr hth alt md mr pa)) stokes).

(** The two intensities that [fit_model] appends to [stokes_f] for one
    target. *)
Definition final_pair (dth hth dd dr md mr : R) (it : R * R * vec4)
  : list R :=
  let '(pa, alt, stokes) := it in
  [q0 (matvec (master_evaluate
                 (Offline.MasterProps Offline.o dth dd dr hth alt md mr pa))
         stokes);
   q0 (matvec (master_evaluate
                 (Offline.MasterProps Offline.e dth dd dr hth alt md mr pa))
         stokes)].

End ClosedForms.

(** The properties of the dictionaries that stay put while [system] or the
    data loop of [fit_model] runs. *)
Definition system_inv (dth hth dd dr md mr : R) (g : Offline.master_props)
  : Prop :=
  Offline.derotator_theta g = dth /\ Offline.derotator_epsilon g = dd
  /\ Offline.derotator_phi g = dr /\ Offline.master_hwp_theta g = hth
  /\ Offline.m3_epsilon g = md /\ Offline.m3_phi g = mr.

(** * Properties *)

(** ** Linear algebra *)

Lemma quad_ext {A : Type} (a0 a1 a2 a3 b0 b1 b2 b3 : A) :
  a0 = b0 -> a1 = b1 -> a2 = b2 -> a3 = b3 ->
  Quad a0 a1 a2 a3 = Quad b0 b1 b2 b3.
Proof. intros; subst; reflexivity. Qed.

Ltac quad_eq := repeat (apply quad_ext).

Ltac unfold_la :=
  cbv [matmul adjugate scale identity vscale matvec qmap tab col dot4 det
       cofactor minor ent det3 det2 get others parity Bool.eqb
       q0 q1 q2 q3].

Lemma adjugate_mul_l (M : mat4) :
  matmul (adjugate M) M = scale (det M) identity.
Proof.
  destruct M as [[a0 a1 a2 a3] [b0 b1 b2 b3] [c0 c1 c2 c3] [d0 d1 d2 d3]].
  unfold_la; quad_eq; ring.
Qed.

Lemma adjugate_mul_r (M : mat4) :
  matmul M (adjugate M) = scale (det M) identity.
Proof.
  destruct M as [[a0 a1 a2 a3] [b0 b1 b2 b3] [c0 c1 c2 c3] [d0 d1 d2 d3]].
  unfold_la; quad_eq; ring.
Qed.

Lemma det_matmul (A B : mat4) : det (matmul A B) = det A * det B.
Proof.
  destruct A as [[a0 a1 a2 a3] [b0 b1 b2 b3] [c0 c1 c2 c3] [d0 d1 d2 d3]].
  destruct B as [[e0 e1 e2 e3] [f0 f1 f2 f3] [g0 g1 g2 g3] [h0 h1 h2 h3]].
  unfold_la; ring.
Qed.

Lemma matmul_scale_l (c : R) (A B : mat4) :
  matmul (scale c A) B = scale c (matmul A B).
Proof.
  destruct A as [[a0 a1 a2 a3] [b0 b1 b2 b3] [c0 c1 c2 c3] [d0 d1 d2 d3]].
  destruct B as [[e0 e1 e2 e3] [f0 f1 f2 f3] [g0 g1 g2 g3] [h0 h1 h2 h3]].
  unfold_la; quad_eq; ring.
Qed.

Lemma matmul_scale_r (c : R) (A B : mat4) :
  matmul A (scale c B) = scale c (matmul A B).
Proof.
  destruct A as [[a0 a1 a2 a3] [b0 b1 b2 b3] [c0 c1 c2 c3] [d0 d1 d2 d3]].
  destruct B as [[e0 e1 e2 e3] [f0 f1 f2 f3] [g0 g1 g2 g3] [h0 h1 h2 h3]].
  unfold_la; quad_eq; ring.
Qed.

Lemma scale_scale_identity (c d : R) :
  c * d = 1 -> scale c (scale d identity) = identity.
Proof.
  intros H. unfold_la. quad_eq; try ring; rewrite Rmult_1_r; exact H.
Qed.

Lemma det_identity : det identity = 1.
Proof. unfold_la; ring. Qed.

(** [inv] returns a two-sided inverse. *)
Lemma inv_Some (M N : mat4) :
  inv M = Some N -> matmul N M = identity /\ matmul M N = identity.
Proof.
  unfold inv. destruct (Req_dec_T (det M) 0) as [|Hd]; [discriminate|].
  intros H; injection H as <-.
  rewrite matmul_scale_l, matmul_scale_r, adjugate_mul_l, adjugate_mul_r.
  split; apply scale_scale_identity; field; exact Hd.
Qed.

(** [inv] fails only on matrices that have no inverse at all. *)
Lemma inv_None (M : mat4) :
  inv M = None <-> ~ exists N, matmul N M = identity.
Proof.
  unfold inv. destruct (Req_dec_T (det M) 0) as [Hd|Hd]; split.
  - intros _ [N HN].
    assert (H : det (matmul N M) = 1) by (rewrite HN; apply det_identity).
    rewrite det_matmul, Hd in H. lra.
  - reflexivity.
  - discriminate.
  - intros H. exfalso. apply H.
    exists (scale (/ det M) (adjugate M)).
    rewrite matmul_scale_l, adjugate_mul_l.
    apply scale_scale_identity. field. exact Hd.
Qed.

Lemma inv_singular (M : mat4) : det M = 0 -> inv M = None.
Proof.
  intros H. unfold inv. destruct (Req_dec_T (det M) 0); [reflexivity|contradiction].
Qed.

(** ** Sequences *)

Lemma dot_app (a b c d : list R) :
  length a = length c -> dot (a ++ b) (c ++ d) = dot a c + dot b d.
Proof.
  revert c. induction a as [|x a IH]; intros [|y c] H; simpl in *; try discriminate.
  - ring.
  - rewrite IH by lia. ring.
Qed.

Lemma columns_transpose (A : matN4) : cols_of (transpose A) = A.
Proof.
  unfold cols_of, transpose; cbn.
  induction A as [|[x y z w] A IH]; cbn; [reflexivity|].
  now rewrite IH.
Qed.

(** [(G @ At) @ b = G @ (At @ b)] *)
Lemma matvec_assoc (G : mat4) (A : matN4) (b : list R) :
  matvec_4N (matmul_44_4N G (transpose A)) b
  = matvec G (matvec_4N (transpose A) b).
Proof.
  unfold matmul_44_4N. rewrite columns_transpose.
  destruct G as [[a0 a1 a2 a3] [b0 b1 b2 b3] [c0 c1 c2 c3] [d0 d1 d2 d3]].
  unfold matvec_4N, transpose, matvec, qmap, dot4; cbn.
  revert b. induction A as [|[x y z w] A IH]; intros [|k b]; cbn.
  - quad_eq; ring.
  - quad_eq; ring.
  - quad_eq; ring.
  - specialize (IH b). injection IH as E0 E1 E2 E3.
    rewrite E0, E1, E2, E3. quad_eq; ring.
Qed.

(** Replaying [for j in range(len(l))] with [l[j]] is a fold over [l]. *)
Lemma fold_left_range {S A : Type} (f : S -> A -> S) (d : A) (l pre : list A)
  (s : S) :
  fold_left (fun st j => f st (nth j (pre ++ l) d))
            (seq (length pre) (length l)) s
  = fold_left f l s.
Proof.
  revert pre s. induction l as [|a l IH]; intros pre s; cbn; [reflexivity|].
  rewrite app_nth2 by lia. rewrite Nat.sub_diag. cbn.
  specialize (IH (pre ++ [a]) (f s a)).
  rewrite <- app_assoc, length_app in IH. cbn in IH.
  rewrite Nat.add_1_r in IH. exact IH.
Qed.

Lemma fold_left_pointwise {S A : Type} (f g : S -> A -> S) (l : list A) (s : S) :
  (forall st a, f st a = g st a) -> fold_left f l s = fold_left g l s.
Proof.
  intros H. revert s. induction l as [|a l IH]; intros s; cbn; [reflexivity|].
  now rewrite H, IH.
Qed.

(** ** The loops of [on_sky] *)

Lemma manual_on_sky_fold (l : list sample) (i : list R) (M : matN4) :
  fold_left Manual.on_sky_step l (i, M)
  = (i ++ measured l, M ++ design_matrix Manual.row_o Manual.row_e l).
Proof.
  revert i M. induction l as [|v l IH]; intros i M; cbn.
  - now rewrite !app_nil_r.
  - unfold Manual.on_sky_step at 2. cbn [fst snd]. rewrite IH. cbn.
    now rewrite <- !app_assoc.
Qed.

Lemma manual_on_sky_loop (values : list sample) :
  Manual.on_sky_loop values
  = (measured values, design_matrix Manual.row_o Manual.row_e values).
Proof.
  transitivity (fold_left Manual.on_sky_step values ([], [])).
  - unfold Manual.on_sky_loop.
    rewrite <- (fold_left_range Manual.on_sky_step no_sample values [] ([], [])).
    cbn [app length].
    apply fold_left_pointwise. intros [i M] j.
    unfold Manual.on_sky_body, Manual.on_sky_step, Manual.row_o, Manual.row_e.
    cbn [fst snd]. now rewrite <- !app_assoc.
  - apply manual_on_sky_fold.
Qed.

Lemma manual_on_sky_eq (values : list sample) :
  Manual.on_sky values
  = normal_equations (design_matrix Manual.row_o Manual.row_e values)
      (measured values).
Proof.
  unfold Manual.on_sky, normal_equations, normal_matrix.
  rewrite manual_on_sky_loop.
  destruct (inv _); [|reflexivity].
  now rewrite matvec_assoc.
Qed.

Section OfflineLoop.

Variable evaluate : Offline.props -> mat4.
Variable fresh : Offline.props.

Lemma offline_on_sky_fold (l : list sample) (st : Offline.on_sky_state) :
  snd (fst (fold_left (Offline.on_sky_step evaluate) l st))
  = snd (fst st) ++ measured l
  /\ snd (fold_left (Offline.on_sky_step evaluate) l st)
     = snd st
       ++ design_matrix (Offline.row_o evaluate) (Offline.row_e evaluate) l.
Proof.
  revert st. induction l as [|v l IH]; intros st; cbn.
  - now rewrite !app_nil_r.
  - destruct (IH (Offline.on_sky_step evaluate st v)) as [E1 E2].
    rewrite E1, E2. unfold Offline.on_sky_step. cbn [fst snd].
    now rewrite <- !app_assoc.
Qed.

Lemma offline_on_sky_loop (values : list sample) :
  Offline.on_sky_loop evaluate fresh values
  = fold_left (Offline.on_sky_step evaluate) values (fresh, [], []).
Proof.
  unfold Offline.on_sky_loop.
  rewrite <- (fold_left_range (Offline.on_sky_step evaluate) no_sample values
                [] (fresh, [], [])).
  cbn [app length].
  apply fold_left_pointwise. intros [[d i] M] j.
  unfold Offline.on_sky_body, Offline.on_sky_step, Offline.row_o,
    Offline.row_e, Offline.set_beam, Offline.set_theta, Offline.set_pa.
  cbn. now rewrite <- !app_assoc.
Qed.

Lemma offline_on_sky_eq (values : list sample) :
  Offline.on_sky evaluate fresh values
  = normal_equations
      (design_matrix (Offline.row_o evaluate) (Offline.row_e evaluate) values)
      (measured values).
Proof.
  unfold Offline.on_sky, normal_equations, normal_matrix.
  rewrite offline_on_sky_loop.
  destruct (offline_on_sky_fold values (fresh, [], [])) as [E1 E2].
  destruct (fold_left (Offline.on_sky_step evaluate) values (fresh, [], []))
    as [[d i] M].
  cbn in E1, E2. subst i M.
  destruct (inv _); [|reflexivity].
  now rewrite matvec_assoc.
Qed.

End OfflineLoop.

Lemma design_matrix_length (ro re : R -> R -> vec4) (values : list sample) :
  length (design_matrix ro re values) = (2 * length values)%nat.
Proof.
  unfold design_matrix. induction values as [|v l IH]; cbn in *; lia.
Qed.

Lemma measured_length (values : list sample) :
  length (measured values) = (2 * length values)%nat.
Proof.
  unfold measured. induction values as [|v l IH]; cbn in *; lia.
Qed.

(** ** Singular normal matrices *)

Lemma dot_zero_r {A : Type} (f g : A -> R) (l : list A) :
  (forall r, In r l -> g r = 0) -> dot (map f l) (map g l) = 0.
Proof.
  induction l as [|a l IH]; intros H; cbn; [reflexivity|].
  rewrite (H a) by (now left). rewrite IH by (intros; apply H; now right).
  ring.
Qed.

Lemma dot_zero_l {A : Type} (f g : A -> R) (l : list A) :
  (forall r, In r l -> f r = 0) -> dot (map f l) (map g l) = 0.
Proof.
  induction l as [|a l IH]; intros H; cbn; [reflexivity|].
  rewrite (H a) by (now left). rewrite IH by (intros; apply H; now right).
  ring.
Qed.

(** A design matrix whose last column is zero has a singular normal matrix. *)
Lemma normal_matrix_zero_column (A : matN4) :
  (forall r, In r A -> q3 r = 0) -> det (normal_matrix A) = 0.
Proof.
  intros H. unfold normal_matrix, matmul_4N_N4, transpose, qmap. cbn.
  unfold det, cofactor, minor, ent, det3, det2. cbn.
  rewrite !(dot_zero_r _ q3 A H), !(dot_zero_l q3 _ A H). ring.
Qed.





Lemma normal_equations_singular (A : matN4) (b : list R) :
  det (normal_matrix A) = 0 -> normal_equations A b = None.
Proof.
  intros H. unfold normal_equations. now rewrite (inv_singular _ H).
Qed.

(** The last column of a rotator is the last unit vector, so a first row
    that ignores [V] still ignores it behind any two rotators. *)
Lemma first_row_blind (c : R) (W : mat4) (a b : R) :
  q3 (q0 W) = 0 ->
  q3 (q0 (scale c (matmul (matmul W (Manual.t a)) (Manual.t b)))) = 0.
Proof.
  destruct W as [[w0 w1 w2 w3] r1 r2 r3]. cbv [q0 q3]. intros ->.
  cbv [Manual.t scale vscale matmul qmap tab col dot4 get q0 q1 q2 q3].
  ring.
Qed.

(** In the numeric variant no row of the design matrix sees [V]. *)
Lemma manual_row_o_blind (hwp sky : R) : q3 (Manual.row_o hwp sky) = 0.
Proof. unfold Manual.row_o. apply first_row_blind. reflexivity. Qed.

Lemma manual_row_e_blind (hwp sky : R) : q3 (Manual.row_e hwp sky) = 0.
Proof. unfold Manual.row_e. apply first_row_blind. reflexivity. Qed.

Lemma manual_design_zero_column (values : list sample) :
  forall r, In r (design_matrix Manual.row_o Manual.row_e values) -> q3 r = 0.
Proof.
  intros r Hr. unfold design_matrix in Hr.
  apply in_flat_map in Hr. destruct Hr as [v [_ Hr]].
  destruct Hr as [E|[E|[]]]; rewrite <- E.
  - exact (manual_row_o_blind _ _).
  - exact (manual_row_e_blind _ _).
Qed.

Lemma manual_on_sky_singular (values : list sample) :
  Manual.on_sky values = None.
Proof.
  rewrite manual_on_sky_eq. apply normal_equations_singular.
  apply normal_matrix_zero_column, manual_design_zero_column.
Qed.

Lemma matvec_matmul (A B : mat4) (v : vec4) :
  matvec (matmul A B) v = matvec A (matvec B v).
Proof.
  destruct A as [[a0 a1 a2 a3] [b0 b1 b2 b3] [c0 c1 c2 c3] [d0 d1 d2 d3]].
  destruct B as [[e0 e1 e2 e3] [f0 f1 f2 f3] [g0 g1 g2 g3] [h0 h1 h2 h3]].
  destruct v as [x y z w].
  cbv [matvec matmul qmap tab col dot4 get q0 q1 q2 q3]. quad_eq; ring.
Qed.

Lemma matvec_identity (v : vec4) : matvec identity v = v.
Proof.
  destruct v as [x y z w].
  cbv [matvec identity qmap dot4 q0 q1 q2 q3]. quad_eq; ring.
Qed.

(** A returned solution satisfies the normal equations [(At A) x = At b]. *)
Lemma normal_equations_sound (A : matN4) (b : list R) (x : vec4) :
  normal_equations A b = Some x ->
  matvec (normal_matrix A) x = matvec_4N (transpose A) b.
Proof.
  unfold normal_equations. destruct (inv (normal_matrix A)) as [G|] eqn:E;
    [|discriminate].
  intros H; injection H as <-.
  apply inv_Some in E. destruct E as [_ E].
  now rewrite <- matvec_matmul, E, matvec_identity.
Qed.

(** A regular normal matrix always gives a solution. *)
Lemma normal_equations_regular (A : matN4) (b : list R) :
  det (normal_matrix A) <> 0 -> exists x, normal_equations A b = Some x.
Proof.
  intros H. unfold normal_equations, inv.
  destruct (Req_dec_T (det (normal_matrix A)) 0); [contradiction|].
  eexists; reflexivity.
Qed.

Lemma nth_error_pairs {A B : Type} (f g : A -> B) (l : list A) (k : nat) :
  nth_error (flat_map (fun v => [f v; g v]) l) (2 * k)
  = option_map f (nth_error l k)
  /\ nth_error (flat_map (fun v => [f v; g v]) l) (2 * k + 1)
     = option_map g (nth_error l k).
Proof.
  revert k. induction l as [|a l IH]; intros [|k].
  - now split.
  - now split.
  - now split.
  - replace (2 * S k)%nat with (S (S (2 * k))) by lia.
    cbn [flat_map app nth_error Nat.add]. apply IH.
Qed.

(** The forward model and the design rows agree: the intensities of [s] are
    the design rows applied to [s]. *)
Lemma forward_rows (s : vec4) (hwp pa : R) :
  q0 (Manual.forward s hwp pa) = dot4 (Manual.row_o hwp pa) s
  /\ q1 (Manual.forward s hwp pa) = dot4 (Manual.row_e hwp pa) s.
Proof.
  unfold Manual.forward, Manual.row_o, Manual.row_e.
  generalize Manual.m_woll_pos, Manual.m_woll_neg, (Manual.t hwp), (Manual.t pa).
  intros [[a0 a1 a2 a3] [b0 b1 b2 b3] [c0 c1 c2 c3] [d0 d1 d2 d3]].
  intros [[a0' a1' a2' a3'] [b0' b1' b2' b3'] [c0' c1' c2' c3'] [d0' d1' d2' d3']].
  intros [[e0 e1 e2 e3] [f0 f1 f2 f3] [g0 g1 g2 g3] [h0 h1 h2 h3]].
  intros [[e0' e1' e2' e3'] [f0' f1' f2' f3'] [g0' g1' g2' g3'] [h0' h1' h2' h3']].
  destruct s as [x y z w].
  cbv [matvec matmul scale vscale qmap tab col dot4 get q0 q1 q2 q3].
  split; ring.
Qed.

(** The forward model in closed form: the two beams carry
    [I +/- (Q cos 4(hwp + pa) + U sin 4(hwp + pa))], halved; [V] is lost. *)
Lemma forward_intensity (I Q U V hwp pa : R) :
  Manual.forward (Quad I Q U V) hwp pa
  = Quad (0.5 * (I + Q * cos (4 * hwp + 4 * pa) + U * sin (4 * hwp + 4 * pa)))
         (0.5 * (I - Q * cos (4 * hwp + 4 * pa) - U * sin (4 * hwp + 4 * pa)))
         hwp pa.
Proof.
  cbv [Manual.forward Manual.m_woll_pos Manual.m_woll_neg Manual.m Manual.t
       matvec matmul scale vscale qmap tab col dot4 get q0 q1 q2 q3].
  replace (2 * (PI / 2)) with PI by field.
  rewrite cos_PI, cos_2PI, cos_plus, sin_plus.
  quad_eq; try reflexivity; ring.
Qed.

Lemma round_trip_samples_eq :
  round_trip_samples
  = [Quad 0.55 0.45 0 0; Quad 0.45 0.55 (PI / 4) 0;
     Quad 0.525 0.475 (PI / 8) 0; Quad 0.475 0.525 (3 * (PI / 8)) 0].
Proof.
  unfold round_trip_samples, round_trip_stokes. cbn [map].
  rewrite !forward_intensity.
  replace (radians 0) with 0 by (unfold radians; lra).
  replace (radians 45) with (PI / 4) by (unfold radians; lra).
  replace (radians 22.5) with (PI / 8) by (unfold radians; lra).
  replace (radians 67.5) with (3 * (PI / 8)) by (unfold radians; lra).
  replace (4 * 0 + 4 * 0) with 0 by ring.
  replace (4 * (PI / 4) + 4 * 0) with PI by field.
  replace (4 * (PI / 8) + 4 * 0) with (PI / 2) by field.
  replace (4 * (3 * (PI / 8)) + 4 * 0) with (3 * (PI / 2)) by field.
  rewrite cos_0, sin_0, cos_PI, sin_PI, cos_PI2, sin_PI2, cos_3PI2, sin_3PI2.
  repeat (apply f_equal2; [quad_eq; lra|]). reflexivity.
Qed.

(** ** The claims *)

(** C1. The round trip through [on_sky] in the numeric variant.  Whatever the
    Stokes vector [s] and the angle pairs, the samples that the forward model
    produces make [on_sky] raise: no design row sees [V], the normal matrix is
    singular and [inv] fails.  This is so in particular for the four samples
    of [(1, 0.1, 0.05, 0)] at HWP angles 0, 45, 22.5 and 67.5 degrees and
    parallactic angle 0, where a Stokes vector was to be returned. *)
Theorem round_trip_on_sky_raises :
  (forall (s : vec4) (angles : list (R * R)),
      Manual.on_sky (map (fun a => Manual.forward s (fst a) (snd a)) angles)
      = None)
  /\ round_trip_samples
     = [Quad 0.55 0.45 0 0; Quad 0.45 0.55 (PI / 4) 0;
        Quad 0.525 0.475 (PI / 8) 0; Quad 0.475 0.525 (3 * (PI / 8)) 0]
  /\ Manual.on_sky round_trip_samples = None
  /\ Manual.on_sky round_trip_samples <> Some round_trip_stokes.
Proof.
  split; [intros; apply manual_on_sky_singular|].
  split; [apply round_trip_samples_eq|].
  rewrite manual_on_sky_singular. split; [reflexivity|discriminate].
Qed.

Lemma normal_equations_inverse (A : matN4) (b : list R) :
  det (normal_matrix A) <> 0 ->
  exists G,
    matmul G (normal_matrix A) = identity
    /\ matmul (normal_matrix A) G = identity
    /\ normal_equations A b = Some (matvec G (matvec_4N (transpose A) b)).
Proof.
  intros Hd. unfold normal_equations.
  destruct (inv (normal_matrix A)) as [G|] eqn:E.
  - exists G. apply inv_Some in E. destruct E as [E1 E2]. now repeat split.
  - unfold inv in E. destruct (Req_dec_T (det (normal_matrix A)) 0);
      [contradiction|discriminate].
Qed.

(** C2, as stated, fails: on the four samples of the round trip, a non-empty
    list, [on_sky] of the numeric variant returns nothing, and the normal
    matrix has no inverse that it could have applied. *)
Lemma on_sky_returns_counterexample :
  round_trip_samples <> []
  /\ Manual.on_sky round_trip_samples = None
  /\ ~ exists G,
        matmul G (normal_matrix
                    (design_matrix Manual.row_o Manual.row_e
                       round_trip_samples)) = identity.
Proof.
  split; [discriminate|].
  split; [apply manual_on_sky_singular|].
  apply inv_None, inv_singular, normal_matrix_zero_column,
    manual_design_zero_column.
Qed.

(** C2, amended.  [on_sky], in the numeric variant and in the pyMuellerMat
    variants, builds two design rows per sample, the first row of the system
    matrix for beam ['o'] and then for beam ['e'] at the sample's angles, and
    the measured intensities [I_pos], [I_neg] in the same order; in the
    pyMuellerMat variants, when the normal matrix [At A] is regular, it
    returns exactly [(At A)^-1 At b]. *)
Theorem on_sky_normal_equations_regular
  (evaluate : Offline.props -> mat4) (fresh : Offline.props)
  (values : list sample) :
  let b := measured values in
  let A := design_matrix Manual.row_o Manual.row_e values in
  let A' := design_matrix (Offline.row_o evaluate) (Offline.row_e evaluate)
              values in
  Manual.on_sky_loop values = (b, A)
  /\ (snd (fst (Offline.on_sky_loop evaluate fresh values)) = b
      /\ snd (Offline.on_sky_loop evaluate fresh values) = A')
  /\ (length A = (2 * length values)%nat
      /\ length A' = (2 * length values)%nat
      /\ length b = (2 * length values)%nat)
  /\ (forall k,
        nth_error A (2 * k)
        = option_map (fun v => Manual.row_o (q2 v) (q3 v)) (nth_error values k)
        /\ nth_error A (2 * k + 1)
           = option_map (fun v => Manual.row_e (q2 v) (q3 v))
               (nth_error values k)
        /\ nth_error A' (2 * k)
           = option_map (fun v => q0 (evaluate (Offline.Props Offline.o
                                                  (q2 v) (q3 v))))
               (nth_error values k)
        /\ nth_error A' (2 * k + 1)
           = option_map (fun v => q0 (evaluate (Offline.Props Offline.e
                                                  (q2 v) (q3 v))))
               (nth_error values k)
        /\ nth_error b (2 * k) = option_map q0 (nth_error values k)
        /\ nth_error b (2 * k + 1) = option_map q1 (nth_error values k))
  /\ (det (normal_matrix A') <> 0 ->
      exists G,
        matmul G (normal_matrix A') = identity
        /\ matmul (normal_matrix A') G = identity
        /\ Offline.on_sky evaluate fresh values
           = Some (matvec G (matvec_4N (transpose A') b))).
Proof.
  intros b A A'.
  split; [|split; [|split; [|split]]].
  - apply manual_on_sky_loop.
  - rewrite offline_on_sky_loop.
    destruct (offline_on_sky_fold evaluate values (fresh, [], [])) as [E1 E2].
    split; [exact E1|exact E2].
  - repeat split;
      [apply design_matrix_length|apply design_matrix_length
      |apply measured_length].
  - intros k. unfold A, A', b, design_matrix, measured.
    repeat split; apply nth_error_pairs.
  - intros Hd. rewrite offline_on_sky_eq.
    exact (normal_equations_inverse A' b Hd).
Qed.

(** C3. The rotator [t(a)] is the rotation of the [(Q, U)] block by [4a]:
    its entries are [cos(4a)], [sin(4a)], [-sin(4a)], [cos(4a)], and this is
    not the [2a] convention (at [a = PI/4] the entry is [-1], not
    [cos(PI/2) = 0]). *)
Theorem rotator_uses_4a :
  (forall a : R,
      Manual.t a
      = Quad (Quad 1 0 0 0)
             (Quad 0 (cos (4 * a)) (sin (4 * a)) 0)
             (Quad 0 (- sin (4 * a)) (cos (4 * a)) 0)
             (Quad 0 0 0 1))
  /\ (forall a I Q U V : R,
         matvec (Manual.t a) (Quad I Q U V)
         = Quad I (Q * cos (4 * a) + U * sin (4 * a))
                (- Q * sin (4 * a) + U * cos (4 * a)) V)
  /\ ent (Manual.t (PI / 4)) I1 I1 = -1
  /\ ent (Manual.t (PI / 4)) I1 I1 <> cos (2 * (PI / 4)).
Proof.
  split; [reflexivity|]. split.
  - intros. cbv [Manual.t matvec qmap dot4 q0 q1 q2 q3]. quad_eq; ring.
  - assert (E : ent (Manual.t (PI / 4)) I1 I1 = -1).
    { cbv [Manual.t ent get q0 q1 q2 q3].
      replace (4 * (PI / 4)) with PI by field. apply cos_PI. }
    split; [exact E|]. rewrite E.
    replace (2 * (PI / 4)) with (PI / 2) by field. rewrite cos_PI2. lra.
Qed.

Lemma manual_wollaston_first (I Q U V : R) :
  q0 (fst (Manual.wollaston (Quad I Q U V))) = 0.5 * (I + Q)
  /\ q0 (snd (Manual.wollaston (Quad I Q U V))) = 0.5 * (I - Q).
Proof.
  cbv [Manual.wollaston Manual.m_woll_pos Manual.m_woll_neg Manual.m fst snd
       vscale matvec qmap dot4 q0 q1 q2 q3].
  replace (2 * (PI / 2)) with PI by field.
  rewrite cos_PI, cos_2PI. split; ring.
Qed.

(** C4. The two beam intensities that [wollaston] returns (first components
    of the two 4-vectors) sum to the input intensity [I]. *)
Theorem wollaston_complementary (I Q U V : R) :
  q0 (fst (Manual.wollaston (Quad I Q U V)))
  + q0 (snd (Manual.wollaston (Quad I Q U V))) = I.
Proof.
  destruct (manual_wollaston_first I Q U V) as [-> ->]. lra.
Qed.

(** C9. In the numeric variant [wollaston] returns the intensities
    [0.5 (I + Q)] and [0.5 (I - Q)]; neither depends on [U] or [V]. *)
Theorem wollaston_intensities (I Q U V : R) :
  q0 (fst (Manual.wollaston (Quad I Q U V))) = 0.5 * (I + Q)
  /\ q0 (snd (Manual.wollaston (Quad I Q U V))) = 0.5 * (I - Q)
  /\ (forall U' V' : R,
         q0 (fst (Manual.wollaston (Quad I Q U' V')))
         = q0 (fst (Manual.wollaston (Quad I Q U V)))
         /\ q0 (snd (Manual.wollaston (Quad I Q U' V')))
            = q0 (snd (Manual.wollaston (Quad I Q U V)))).
Proof.
  destruct (manual_wollaston_first I Q U V) as [E1 E2].
  split; [exact E1|]. split; [exact E2|].
  intros U' V'. destruct (manual_wollaston_first I Q U' V') as [E3 E4].
  split; congruence.
Qed.

(** *** Inversion routines that only see exact zeros *)

Lemma is_zero_true (x : R) : is_zero x = true <-> x = 0.
Proof.
  unfold is_zero. destruct (Req_dec_T x 0); split; try easy.
Qed.


Lemma zero_col_true (M : mat4) (j : idx4) :
  zero_col M j = true ->
  ent M I0 j = 0 /\ ent M I1 j = 0 /\ ent M I2 j = 0 /\ ent M I3 j = 0.
Proof.
  unfold zero_col. rewrite !Bool.andb_true_iff, !is_zero_true. tauto.
Qed.

(** A matrix with a column of zeros is singular. *)
Lemma has_zero_col_singular (M : mat4) : has_zero_col M = true -> det M = 0.
Proof.
  unfold has_zero_col. rewrite !Bool.orb_true_iff.
  intros [[[H|H]|H]|H]; apply zero_col_true in H;
    destruct M as [[a0 a1 a2 a3] [b0 b1 b2 b3] [c0 c1 c2 c3] [d0 d1 d2 d3]];
    cbv [ent get q0 q1 q2 q3] in H; destruct H as (-> & -> & -> & ->);
    unfold_la; ring.
Qed.

Lemma inv_like_inv : inv_like inv.
Proof.
  split; [reflexivity|].
  intros M H. apply inv_singular, has_zero_col_singular, H.
Qed.





Lemma on_sky_with_inv (evaluate : Offline.props -> mat4)
  (fresh : Offline.props) (values : list sample) :
  Manual.on_sky_with inv values = Manual.on_sky values
  /\ Offline.on_sky_with evaluate fresh inv values
     = Offline.on_sky evaluate fresh values.
Proof. split; reflexivity. Qed.






(** ** Angle units *)

Lemma degrees_radians (d : R) : degrees (radians d) = d.
Proof. unfold degrees, radians. field. apply PI_neq0. Qed.

Lemma radians_45 : radians 45 = PI / 4.
Proof. unfold radians. field. Qed.

Lemma quarter_PI_not_45 : PI / 4 <> 45.
Proof. pose proof PI_4. lra. Qed.

(** C6. The angle-unit contract.  In the pyMuellerMat variants
    [plot_wollaston] stores [degrees(angle)] in ['theta'], but the samples
    that [main] hands to [on_sky] carry [radians] of the angles typed in
    degrees, and [on_sky] stores them as they are: for an HWP angle of 45
    degrees the value stored in ['theta'] is [PI/4], not 45.  In the numeric
    variant the same sample feeds [t] with the radian measure. *)
Theorem on_sky_stores_radians
  (evaluate : Offline.props -> mat4) (fresh : Offline.props) (stokes : vec4) :
  let sys_mm :=
    fst (fst (Offline.on_sky_loop evaluate fresh
                [Offline.main_sample 0.55 0.45 45 0])) in
  Offline.HalfwaveRetarder_theta sys_mm = PI / 4
  /\ Offline.HalfwaveRetarder_theta sys_mm <> 45
  /\ Offline.Rotator_pa sys_mm = radians 0
  /\ Offline.HalfwaveRetarder_theta
       (fst (Offline.plot_wollaston_body evaluate stokes fresh (radians 45)))
     = 45
  /\ q2 (Manual.main_sample 0.55 0.45 45 0) = PI / 4.
Proof.
  cbv [Offline.on_sky_loop Offline.on_sky_body Offline.main_sample
       Manual.main_sample fold_left seq length nth q2 q3 fst
       Offline.set_theta Offline.set_pa Offline.set_beam
       Offline.plot_wollaston_body
       Offline.HalfwaveRetarder_theta Offline.Rotator_pa].
  rewrite degrees_radians, radians_45.
  repeat split. apply quarter_PI_not_45.
Qed.

(** ** The report of [fit_model] *)

Lemma half_retardance_mean :
  Offline.mean (map q1 Offline.half_retardance_estimate) = 93.3.
Proof.
  cbv [Offline.mean Offline.half_retardance_estimate map q1 fold_right length INR].
  lra.
Qed.

(** C7. The percent error that [fit_model] reports.  For the derotator
    retardance the code divides by the estimated mean, not by the ground
    truth: with per-HWP-angle estimates whose retardance mean is 93.3 against
    a truth of 186.6, the reported error is 100 where the deviation relative
    to the truth is 50.  The other three errors are relative to the truth. *)
Theorem fit_error_retardance_divides_by_estimate :
  (forall estimate : list vec4,
      let f := Offline.fit_means estimate in
      Offline.fit_error estimate
      = Quad (Rabs ((q0 f - Offline.derotator_d_i) / Offline.derotator_d_i * 100))
             (Rabs ((q1 f - Offline.derotator_r_i) / q1 f * 100))
             (Rabs ((q2 f - Offline.m3_d_i) / Offline.m3_d_i * 100))
             (Rabs ((q3 f - Offline.m3_r_i) / Offline.m3_r_i * 100)))
  /\ q1 (Offline.fit_error Offline.half_retardance_estimate) = 100
  /\ Rabs ((q1 (Offline.fit_means Offline.half_retardance_estimate)
            - Offline.derotator_r_i) / Offline.derotator_r_i * 100) = 50.
Proof.
  split; [reflexivity|].
  unfold Offline.fit_error, Offline.fit_means, qmap; cbn [q1].
  rewrite half_retardance_mean. unfold Offline.derotator_r_i.
  split.
  - replace ((93.3 - 186.6) / 93.3 * 100) with (- 100) by lra.
    rewrite Rabs_left; lra.
  - replace ((93.3 - 186.6) / 186.6 * 100) with (- 50) by lra.
    rewrite Rabs_left; lra.
Qed.

(** C8. The Stokes vectors that [fit_model] derives for the targets at HWP
    angle [theta] are [(1, p cos(2 theta), p sin(2 theta), 0)] for each
    catalog polarization fraction [p], and [stokes_i] holds that list for
    each of the angles 0, 22.5, 45 and 60. *)
Theorem initial_stokes_derivation :
  (forall theta : R,
      Offline.initial_stokes theta
      = map (fun pk => Quad 1 (pk * cos (2 * theta)) (pk * sin (2 * theta)) 0)
            Offline.p)
  /\ Offline.stokes_i
     = map (fun theta =>
              (theta,
               map (fun pk =>
                      Quad 1 (pk * cos (2 * theta)) (pk * sin (2 * theta)) 0)
                   [0.0061; 0.0142; 0.0157]))
           [0; 22.5; 45; 60].
Proof.
  split; [intros theta|]; reflexivity.
Qed.

(** ** The fit function [system] *)

Lemma zip3_length {A B C : Type} (a : list A) (b : list B) (c : list C) :
  length (Offline.zip3 a b c)
  = Nat.min (length a) (Nat.min (length b) (length c)).
Proof.
  revert b c. induction a as [|x a IH]; intros [|y b] [|z c]; cbn;
    try reflexivity.
  now rewrite IH.
Qed.

Lemma zip3_firstn {A B C : Type} (a : list A) (b : list B) (c : list C) :
  Offline.zip3 (firstn (length b) a) b c = Offline.zip3 a b c.
Proof.
  revert b c. induction a as [|x a IH]; intros [|y b] [|z c]; cbn;
    try reflexivity.
  now rewrite IH.
Qed.

Lemma enumerate_from_firstn {A : Type} (n k : nat) (x : list A) :
  combine (seq k (length (firstn n x))) (firstn n x)
  = firstn n (combine (seq k (length x)) x).
Proof.
  revert k x. induction n as [|n IH]; intros k [|a x]; cbn; try reflexivity.
  now rewrite IH.
Qed.

Lemma enumerate_length {A : Type} (x : list A) :
  length (Offline.enumerate x) = length x.
Proof.
  unfold Offline.enumerate. rewrite length_combine, length_seq. apply Nat.min_id.
Qed.

Lemma system_body_length (master_evaluate : Offline.master_props -> mat4)
  (l : list (nat * vec4 * R * R)) (st : Offline.master_props * list R) :
  length (snd (fold_left (Offline.system_body master_evaluate) l st))
  = (length (snd st) + length l)%nat.
Proof.
  revert st. induction l as [|[[[n s] pa] alt] l IH]; intros [g Is]; cbn [fold_left].
  - cbn. lia.
  - rewrite IH. cbv [Offline.system_body snd]. rewrite length_app. cbn. lia.
Qed.

Lemma repeat2_length {A : Type} (a : list A) :
  length (Offline.repeat2 a) = (2 * length a)%nat.
Proof.
  unfold Offline.repeat2. induction a as [|x a IH]; cbn in *; lia.
Qed.

Lemma angles_length : length Offline.angles = 3%nat.
Proof. reflexivity. Qed.

Lemma altitudes_length : length Offline.altitudes = 3%nat.
Proof. reflexivity. Qed.

(** C10. [system(x, dd, dr, md, mr)] returns [min(len(x), 6)] intensities:
    rows of [x] after the sixth are ignored, a shorter [x] gives a shorter
    result, and nothing is raised for the mismatch. *)
Theorem system_length (master_evaluate : Offline.master_props -> mat4)
  (g : Offline.master_props) (x : list vec4) (dd dr md mr : R) :
  length (Offline.system master_evaluate g x dd dr md mr)
  = Nat.min (length x) 6
  /\ Offline.system master_evaluate g x dd dr md mr
     = Offline.system master_evaluate g (firstn 6 x) dd dr md mr.
Proof.
  unfold Offline.system, Offline.system_run. split.
  - rewrite system_body_length, zip3_length, enumerate_length,
      !repeat2_length, angles_length, altitudes_length. cbn. lia.
  - f_equal. f_equal.
    rewrite <- (zip3_firstn (Offline.enumerate x)),
      <- (zip3_firstn (Offline.enumerate (firstn 6 x))).
    rewrite repeat2_length, angles_length. cbn [Nat.mul Nat.add].
    f_equal. unfold Offline.enumerate.
    rewrite enumerate_from_firstn, firstn_firstn. reflexivity.
Qed.

(** * Further properties of the numeric variant *)

(** ** Rotators *)

(** X1. Rotators compose by adding their angles, in either order:
    [t(a) @ t(b) = t(a + b) = t(b) @ t(a)]. *)
Theorem rotator_compose (a b : R) :
  matmul (Manual.t a) (Manual.t b) = Manual.t (a + b)
  /\ matmul (Manual.t a) (Manual.t b) = matmul (Manual.t b) (Manual.t a).
Proof.
  assert (E : forall x y, matmul (Manual.t x) (Manual.t y) = Manual.t (x + y)).
  { intros x y.
    cbv [Manual.t matmul qmap tab col dot4 get q0 q1 q2 q3].
    replace (4 * (x + y)) with (4 * x + 4 * y) by ring.
    rewrite cos_plus, sin_plus. quad_eq; ring. }
  split; [apply E|]. rewrite !E. now rewrite Rplus_comm.
Qed.

Lemma rotator_zero : Manual.t 0 = identity.
Proof.
  cbv [Manual.t identity]. replace (4 * 0) with 0 by ring.
  rewrite cos_0, sin_0. quad_eq; ring.
Qed.

Lemma rotator_det (a : R) : det (Manual.t a) = 1.
Proof.
  unfold Manual.t. unfold_la.
  pose proof (sin2_cos2 (4 * a)) as H. unfold Rsqr in H.
  ring_simplify. ring_simplify in H. lra.
Qed.

Lemma rotator_cancel (a : R) : matmul (Manual.t a) (Manual.t (- a)) = identity.
Proof.
  cbv [Manual.t matmul identity qmap tab col dot4 get q0 q1 q2 q3].
  replace (4 * - a) with (- (4 * a)) by ring.
  rewrite cos_neg, sin_neg.
  pose proof (sin2_cos2 (4 * a)) as H. unfold Rsqr in H.
  quad_eq; try ring; ring_simplify; ring_simplify in H; lra.
Qed.

(** X2. A rotator is undone by the rotator of the opposite angle, has
    determinant 1, and [inv] returns that opposite rotator. *)
Theorem rotator_inverse (a : R) :
  matmul (Manual.t a) (Manual.t (- a)) = identity
  /\ matmul (Manual.t (- a)) (Manual.t a) = identity
  /\ det (Manual.t a) = 1
  /\ inv (Manual.t a) = Some (Manual.t (- a)).
Proof.
  split; [apply rotator_cancel|].
  split; [rewrite <- (Ropp_involutive a) at 2; apply rotator_cancel|].
  split; [apply rotator_det|].
  unfold inv. rewrite rotator_det.
  destruct (Req_dec_T 1 0) as [H|_]; [lra|].
  f_equal.
  cbv [Manual.t adjugate scale vscale qmap tab cofactor minor ent det3 det2
       get others parity Bool.eqb q0 q1 q2 q3].
  replace (4 * - a) with (- (4 * a)) by ring.
  rewrite cos_neg, sin_neg.
  pose proof (sin2_cos2 (4 * a)) as H. unfold Rsqr in H.
  quad_eq; try (field_simplify; lra); field_simplify; ring_simplify in H; lra.
Qed.

(** X3. The rotator has period [PI/2] in its angle: a quarter turn of the
    half-wave plate gives the same matrix. *)
Theorem rotator_period (a : R) : Manual.t (a + PI / 2) = Manual.t a.
Proof.
  cbv [Manual.t].
  replace (4 * (a + PI / 2)) with (4 * a + 2 * PI) by field.
  rewrite cos_plus, sin_plus, cos_2PI, sin_2PI. quad_eq; ring.
Qed.

(** ** The matrix [m] and the Wollaston beams *)

(** X4. The intensity behind [0.5 * m(theta, phi)] is
    [0.5 (I - Q cos(2 theta))], whatever [phi], [U] and [V]; the beams at
    [theta] and [theta + PI/2] share the input intensity between them. *)
Theorem m_beams_complementary (theta phi phi' I Q U V : R) :
  q0 (vscale 0.5 (matvec (Manual.m theta phi) (Quad I Q U V)))
  = 0.5 * (I - Q * cos (2 * theta))
  /\ q0 (vscale 0.5 (matvec (Manual.m theta phi) (Quad I Q U V)))
     + q0 (vscale 0.5 (matvec (Manual.m (theta + PI / 2) phi') (Quad I Q U V)))
     = I.
Proof.
  cbv [Manual.m vscale matvec qmap dot4 q0 q1 q2 q3].
  replace (2 * (theta + PI / 2)) with (2 * theta + PI) by field.
  rewrite neg_cos. split; [ring|lra].
Qed.

Lemma manual_wollaston_vectors (I Q U V : R) :
  Manual.wollaston (Quad I Q U V)
  = (Quad (0.5 * (I + Q)) (0.5 * (I + Q)) 0 0,
     Quad (0.5 * (I - Q)) (- (0.5 * (I - Q))) 0 0).
Proof.
  cbv [Manual.wollaston Manual.m_woll_pos Manual.m_woll_neg Manual.m
       vscale matvec qmap dot4 q0 q1 q2 q3].
  replace (2 * (PI / 2)) with PI by field.
  rewrite cos_PI, sin_PI, cos_2PI, sin_2PI.
  apply f_equal2; quad_eq; ring.
Qed.

(** X5. The two vectors that [wollaston] returns are fully polarized along
    [+Q] and [-Q], with no [U] or [V]; sent through [wollaston] again, the
    positive beam comes out whole in the positive beam and leaves nothing in
    the negative one, and the other way round. *)
Theorem wollaston_beams_polarized (I Q U V : R) :
  let pos := fst (Manual.wollaston (Quad I Q U V)) in
  let neg := snd (Manual.wollaston (Quad I Q U V)) in
  pos = Quad (0.5 * (I + Q)) (0.5 * (I + Q)) 0 0
  /\ neg = Quad (0.5 * (I - Q)) (- (0.5 * (I - Q))) 0 0
  /\ Manual.wollaston pos = (pos, Quad 0 0 0 0)
  /\ Manual.wollaston neg = (Quad 0 0 0 0, neg).
Proof.
  intros pos neg. unfold pos, neg.
  rewrite (manual_wollaston_vectors I Q U V). cbn [fst snd].
  split; [reflexivity|]. split; [reflexivity|].
  rewrite !manual_wollaston_vectors.
  split; (apply f_equal2; quad_eq; lra).
Qed.

(** ** [plot_wollaston] *)

Lemma plot_wollaston_data_app (stokes : vec4) (l : list R) (acc : list (R * R)) :
  fold_left (fun data angle => data ++ [Manual.plot_wollaston_row stokes angle])
            l acc
  = acc ++ map (Manual.plot_wollaston_row stokes) l.
Proof.
  revert acc. induction l as [|a l IH]; intros acc; cbn.
  - now rewrite app_nil_r.
  - rewrite IH. now rewrite <- app_assoc.
Qed.

Lemma plot_wollaston_row_eq (I Q U V angle : R) :
  Manual.plot_wollaston_row (Quad I Q U V) angle
  = (degrees angle, Q * cos (4 * angle) + U * sin (4 * angle)).
Proof.
  cbv [Manual.plot_wollaston_row Manual.m_woll_pos Manual.m_woll_neg Manual.m
       Manual.t vscale matvec matmul qmap tab col dot4 get q0 q1 q2 q3].
  replace (2 * (PI / 2)) with PI by field.
  rewrite cos_PI, cos_2PI. apply f_equal2; [reflexivity|lra].
Qed.

Lemma modulation_bound (Q U x : R) :
  (Q * cos x + U * sin x) ^ 2 <= Q ^ 2 + U ^ 2.
Proof.
  pose proof (sin2_cos2 x) as H. unfold Rsqr in H.
  assert (K : Q ^ 2 + U ^ 2 - (Q * cos x + U * sin x) ^ 2
              = (Q * sin x - U * cos x) ^ 2).
  { transitivity ((Q ^ 2 + U ^ 2) * (sin x * sin x + cos x * cos x)
                  - (Q * cos x + U * sin x) ^ 2).
    - rewrite H. ring.
    - ring. }
  pose proof (pow2_ge_0 (Q * sin x - U * cos x)). lra.
Qed.

(** X6. [plot_wollaston] plots one point per angle, in order: at [angle] the
    abscissa is the angle in degrees and the ordinate is
    [Q cos(4 angle) + U sin(4 angle)].  The plotted difference does not depend
    on [I] or [V], and its square never exceeds [Q^2 + U^2]. *)
Theorem plot_wollaston_curve (I Q U V : R) (arange : list R) :
  Manual.plot_wollaston_data (Quad I Q U V) arange
  = map (fun angle =>
           (degrees angle, Q * cos (4 * angle) + U * sin (4 * angle))) arange
  /\ length (Manual.plot_wollaston_data (Quad I Q U V) arange) = length arange
  /\ Forall (fun pt => snd pt ^ 2 <= Q ^ 2 + U ^ 2)
       (Manual.plot_wollaston_data (Quad I Q U V) arange).
Proof.
  assert (E : Manual.plot_wollaston_data (Quad I Q U V) arange
              = map (fun angle =>
                       (degrees angle,
                        Q * cos (4 * angle) + U * sin (4 * angle))) arange).
  { unfold Manual.plot_wollaston_data.
    rewrite plot_wollaston_data_app. cbn [app].
    apply map_ext. intros a. apply plot_wollaston_row_eq. }
  rewrite E. split; [reflexivity|]. split; [apply length_map|].
  apply Forall_forall. intros pt Hpt. apply in_map_iff in Hpt.
  destruct Hpt as [a [<- _]]. cbn [snd]. apply modulation_bound.
Qed.

(** ** [on_sky] in the numeric variant *)

(** X7. In the numeric variant [on_sky] raises on every input: whatever the
    samples, the normal matrix built from [m_system] is singular. *)
Theorem manual_on_sky_always_raises (values : list sample) :
  det (matmul_4N_N4 (transpose (snd (Manual.on_sky_loop values)))
         (snd (Manual.on_sky_loop values))) = 0
  /\ Manual.on_sky values = None.
Proof.
  split; [|apply manual_on_sky_singular].
  rewrite manual_on_sky_loop. cbn [snd].
  apply (normal_matrix_zero_column _ (manual_design_zero_column values)).
Qed.

Lemma manual_rows_closed (hwp sky : R) :
  Manual.row_o hwp sky
  = Quad 0.5 (0.5 * cos (4 * (hwp + sky))) (0.5 * sin (4 * (hwp + sky))) 0
  /\ Manual.row_e hwp sky
     = Quad 0.5 (- (0.5 * cos (4 * (hwp + sky))))
            (- (0.5 * sin (4 * (hwp + sky)))) 0.
Proof.
  replace (4 * (hwp + sky)) with (4 * hwp + 4 * sky) by ring.
  cbv [Manual.row_o Manual.row_e Manual.m_woll_pos Manual.m_woll_neg Manual.m
       Manual.t scale vscale matmul qmap tab col dot4 get q0 q1 q2 q3].
  replace (2 * (PI / 2)) with PI by field.
  rewrite cos_PI, cos_2PI, cos_plus, sin_plus.
  split; quad_eq; lra.
Qed.

(** X8. The rows that [on_sky] appends to [m_system] for a sample are
    [0.5 (1, c, s, 0)] and [0.5 (1, -c, -s, 0)] with [c], [s] the cosine and
    sine of [4 (hwp + sky)]: only the sum of the two angles matters, so
    folding the parallactic angle into the HWP angle leaves [m_system]
    unchanged. *)
Theorem manual_design_rows (values : list sample) :
  snd (Manual.on_sky_loop values)
  = flat_map (fun v =>
                [Quad 0.5 (0.5 * cos (4 * (q2 v + q3 v)))
                      (0.5 * sin (4 * (q2 v + q3 v))) 0;
                 Quad 0.5 (- (0.5 * cos (4 * (q2 v + q3 v))))
                      (- (0.5 * sin (4 * (q2 v + q3 v)))) 0]) values
  /\ snd (Manual.on_sky_loop values)
     = snd (Manual.on_sky_loop
              (map (fun v => Quad (q0 v) (q1 v) (q2 v + q3 v) 0) values)).
Proof.
  rewrite !manual_on_sky_loop. cbn [snd]. unfold design_matrix.
  split.
  - induction values as [|v l IH]; [reflexivity|].
    cbn [flat_map]. rewrite IH.
    destruct (manual_rows_closed (q2 v) (q3 v)) as [-> ->]. reflexivity.
  - induction values as [|v l IH]; [reflexivity|].
    cbn [flat_map map q2 q3]. rewrite IH.
    destruct (manual_rows_closed (q2 v) (q3 v)) as [-> ->].
    destruct (manual_rows_closed (q2 v + q3 v) 0) as [-> ->].
    now rewrite Rplus_0_r.
Qed.

(** * Further properties of the pyMuellerMat variants *)

(** ** [on_sky] on a regular design *)

Lemma dot_exact (f : vec4 -> R) (A : matN4) (s : vec4) :
  dot (map f A) (map (fun r => dot4 r s) A)
  = dot (map f A) (map q0 A) * q0 s + dot (map f A) (map q1 A) * q1 s
    + dot (map f A) (map q2 A) * q2 s + dot (map f A) (map q3 A) * q3 s.
Proof.
  induction A as [|r A IH]; cbn [map dot].
  - ring.
  - rewrite IH. unfold dot4. ring.
Qed.

(** [At (A s) = (At A) s] *)
Lemma transpose_design_exact (A : matN4) (s : vec4) :
  matvec_4N (transpose A) (map (fun r => dot4 r s) A)
  = matvec (normal_matrix A) s.
Proof.
  unfold matvec_4N, transpose, matvec, normal_matrix, matmul_4N_N4, qmap.
  cbn [q0 q1 q2 q3]. rewrite !dot_exact. unfold dot4. cbn [q0 q1 q2 q3].
  reflexivity.
Qed.

Lemma normal_equations_exact (A : matN4) (s : vec4) :
  det (normal_matrix A) <> 0 ->
  normal_equations A (map (fun r => dot4 r s) A) = Some s.
Proof.
  intros H. unfold normal_equations.
  destruct (inv (normal_matrix A)) as [G|] eqn:E.
  - apply inv_Some in E. destruct E as [E _].
    now rewrite transpose_design_exact, <- matvec_matmul, E, matvec_identity.
  - unfold inv in E. destruct (Req_dec_T (det (normal_matrix A)) 0);
      [contradiction|discriminate].
Qed.

Lemma measured_exact (ro re : R -> R -> vec4) (s : vec4) (values : list sample) :
  (forall v, In v values ->
             q0 v = dot4 (ro (q2 v) (q3 v)) s
             /\ q1 v = dot4 (re (q2 v) (q3 v)) s) ->
  measured values = map (fun r => dot4 r s) (design_matrix ro re values).
Proof.
  unfold measured, design_matrix.
  induction values as [|v l IH]; intros H; [reflexivity|].
  cbn [flat_map app map].
  destruct (H v (or_introl eq_refl)) as [<- <-].
  rewrite IH; [reflexivity|]. intros x Hx. apply H. now right.
Qed.

Lemma toy_design :
  design_matrix (Offline.row_o toy_evaluate) (Offline.row_e toy_evaluate)
    toy_values
  = [Quad (1 - 0) 0 0 0; Quad 0 (1 - 0) 0 0;
     Quad (1 - 1) 0 1 0; Quad 0 (1 - 1) 0 1].
Proof. reflexivity. Qed.

Lemma toy_regular :
  det (normal_matrix
         (design_matrix (Offline.row_o toy_evaluate)
            (Offline.row_e toy_evaluate) toy_values)) <> 0.
Proof.
  rewrite toy_design.
  cbv [normal_matrix matmul_4N_N4 transpose qmap map dot det cofactor minor
       ent det3 det2 get others parity Bool.eqb q0 q1 q2 q3].
  lra.
Qed.

Lemma toy_exact (v : sample) :
  In v toy_values ->
  q0 v = q0 (matvec (toy_evaluate (Offline.Props Offline.o (q2 v) (q3 v)))
               round_trip_stokes)
  /\ q1 v = q0 (matvec (toy_evaluate (Offline.Props Offline.e (q2 v) (q3 v)))
                  round_trip_stokes).
Proof.
  intros [<-|[<-|[]]];
    cbv [toy_evaluate round_trip_stokes matvec qmap dot4
         Offline.HalfwaveRetarder_theta Offline.WollastonPrism_beam
         q0 q1 q2 q3];
    split; lra.
Qed.

Lemma on_sky_normal_equations_regular_witness :
  det (normal_matrix
         (design_matrix (Offline.row_o toy_evaluate)
            (Offline.row_e toy_evaluate) toy_values)) <> 0
  /\ exists G,
       matmul G (normal_matrix
                   (design_matrix (Offline.row_o toy_evaluate)
                      (Offline.row_e toy_evaluate) toy_values)) = identity
       /\ Offline.on_sky toy_evaluate (Offline.Props Offline.o 0 0) toy_values
          = Some (matvec G
                    (matvec_4N
                       (transpose
                          (design_matrix (Offline.row_o toy_evaluate)
                             (Offline.row_e toy_evaluate) toy_values))
                       (measured toy_values))).
Proof.
  split; [exact toy_regular|].
  destruct (proj2 (proj2 (proj2 (proj2
              (on_sky_normal_equations_regular toy_evaluate
                 (Offline.Props Offline.o 0 0) toy_values)))) toy_regular)
    as [G [H1 [_ H3]]].
  exists G. split; [exact H1|exact H3].
Defined.

Lemma offline_round_trip_aux (evaluate : Offline.props -> mat4)
  (fresh : Offline.props) (s : vec4) (values : list sample) :
  det (normal_matrix
         (design_matrix (Offline.row_o evaluate) (Offline.row_e evaluate)
            values)) <> 0 ->
  (forall v, In v values ->
     q0 v = q0 (matvec (evaluate (Offline.Props Offline.o (q2 v) (q3 v))) s)
     /\ q1 v = q0 (matvec (evaluate (Offline.Props Offline.e (q2 v) (q3 v))) s)) ->
  Offline.on_sky evaluate fresh values = Some s.
Proof.
  intros Hd Hv. rewrite offline_on_sky_eq.
  rewrite (measured_exact (Offline.row_o evaluate) (Offline.row_e evaluate) s
             values Hv).
  now apply normal_equations_exact.
Qed.

(** X9. The round trip in the pyMuellerMat variants.  When the normal matrix
    of the samples is regular and each sample carries the two intensities
    that the system gives for a Stokes vector [s] at the sample's angles (first
    component of [evaluate() @ s] with beam ['o'], then ['e']), [on_sky]
    returns exactly [s]. *)
Theorem offline_round_trip (evaluate : Offline.props -> mat4)
  (fresh : Offline.props) (s : vec4) (values : list sample) :
  det (normal_matrix
         (design_matrix (Offline.row_o evaluate) (Offline.row_e evaluate)
            values)) <> 0 ->
  (forall v, In v values ->
     q0 v = q0 (matvec (evaluate (Offline.Props Offline.o (q2 v) (q3 v))) s)
     /\ q1 v = q0 (matvec (evaluate (Offline.Props Offline.e (q2 v) (q3 v))) s)) ->
  Offline.on_sky evaluate fresh values = Some s.
Proof. apply offline_round_trip_aux. Qed.

Lemma offline_round_trip_witness :
  Offline.on_sky toy_evaluate (Offline.Props Offline.o 0 0) toy_values
  = Some round_trip_stokes.
Proof.
  apply (offline_round_trip toy_evaluate (Offline.Props Offline.o 0 0)
           round_trip_stokes toy_values).
  - exact toy_regular.
  - exact toy_exact.
Defined.

(** ** [on_sky] returns a least-squares solution *)

Lemma residual_nonneg (A : matN4) (b : list R) (x : vec4) :
  0 <= residual A b x.
Proof.
  unfold residual. induction (combine A b) as [|[r k] l IH]; cbn [fold_right].
  - lra.
  - pose proof (pow2_ge_0 (dot4 (fst (r, k)) x - snd (r, k))). lra.
Qed.

(** [|A y - b|^2 = |A x - b|^2 + |A (y - x)|^2 + 2 (y - x) . (At A x - At b)] *)
Lemma residual_split (A : matN4) (b : list R) (x y : vec4) :
  length A = length b ->
  residual A b y
  = residual A b x + residual A (map (fun _ => 0) A) (vsub y x)
    + 2 * (dot4 (vsub y x) (matvec (normal_matrix A) x)
           - dot4 (vsub y x) (matvec_4N (transpose A) b)).
Proof.
  destruct x as [x0 x1 x2 x3], y as [y0 y1 y2 y3].
  unfold residual, normal_matrix, matmul_4N_N4, matvec, matvec_4N, transpose,
    vsub, qmap, dot4. cbn [q0 q1 q2 q3].
  revert b. induction A as [|[r0 r1 r2 r3] A IH]; intros [|k b] H;
    try discriminate.
  - cbn. ring.
  - cbn [combine map fold_right dot fst snd q0 q1 q2 q3].
    rewrite (IH b) by (cbn in H; lia). ring.
Qed.

Lemma normal_equations_least_squares (A : matN4) (b : list R) (x : vec4) :
  length A = length b ->
  normal_equations A b = Some x ->
  forall y, residual A b x <= residual A b y.
Proof.
  intros HL Hx y. apply normal_equations_sound in Hx.
  rewrite (residual_split A b x y HL), Hx.
  pose proof (residual_nonneg A (map (fun _ => 0) A) (vsub y x)). lra.
Qed.

Lemma toy_on_sky :
  Offline.on_sky toy_evaluate (Offline.Props Offline.o 0 0) toy_values
  = Some round_trip_stokes.
Proof. apply offline_round_trip_aux; [exact toy_regular|exact toy_exact]. Qed.

(** X10. On a regular normal matrix what [on_sky] returns is a least-squares
    solution: it satisfies the normal equations [(At A) x = At b], and no
    Stokes vector has a smaller sum of squared residuals [|A y - b|^2]
    against the measured intensities. *)
Theorem on_sky_least_squares (evaluate : Offline.props -> mat4)
  (fresh : Offline.props) (values : list sample) :
  let A := design_matrix (Offline.row_o evaluate) (Offline.row_e evaluate)
             values in
  det (normal_matrix A) <> 0 ->
  exists x,
    Offline.on_sky evaluate fresh values = Some x
    /\ matvec (normal_matrix A) x = matvec_4N (transpose A) (measured values)
    /\ forall y,
         residual A (measured values) x <= residual A (measured values) y.
Proof.
  intros A Hd.
  destruct (normal_equations_regular A (measured values) Hd) as [x Hx].
  exists x. rewrite offline_on_sky_eq. fold A.
  split; [exact Hx|]. split; [now apply normal_equations_sound|].
  apply normal_equations_least_squares; [|exact Hx].
  unfold A. now rewrite design_matrix_length, measured_length.
Qed.

Lemma on_sky_least_squares_witness :
  det (normal_matrix
         (design_matrix (Offline.row_o toy_evaluate)
            (Offline.row_e toy_evaluate) toy_values)) <> 0
  /\ exists x,
       Offline.on_sky toy_evaluate (Offline.Props Offline.o 0 0) toy_values
       = Some x
       /\ forall y,
            residual (design_matrix (Offline.row_o toy_evaluate)
                        (Offline.row_e toy_evaluate) toy_values)
              (measured toy_values) x
            <= residual (design_matrix (Offline.row_o toy_evaluate)
                           (Offline.row_e toy_evaluate) toy_values)
                 (measured toy_values) y.
Proof.
  split; [exact toy_regular|].
  destruct (on_sky_least_squares toy_evaluate (Offline.Props Offline.o 0 0)
              toy_values toy_regular) as [x [H1 [_ H3]]].
  exists x. split; [exact H1|exact H3].
Defined.

(** ** The order of the samples *)

Lemma sum_over_perm {A : Type} (h : A -> R) (l l' : list A) :
  Permutation l l' -> sum_over h l = sum_over h l'.
Proof.
  induction 1; unfold sum_over in *; cbn [fold_right].
  - reflexivity.
  - now rewrite IHPermutation.
  - ring.
  - congruence.
Qed.

Lemma sum_over_cons {A : Type} (h : A -> R) (v : A) (l : list A) :
  sum_over h (v :: l) = h v + sum_over h l.
Proof. reflexivity. Qed.

Lemma gram_sum (ro re : R -> R -> vec4) (f g : vec4 -> R)
  (values : list sample) :
  dot (map f (design_matrix ro re values)) (map g (design_matrix ro re values))
  = sum_over (fun v => f (ro (q2 v) (q3 v)) * g (ro (q2 v) (q3 v))
                       + f (re (q2 v) (q3 v)) * g (re (q2 v) (q3 v))) values.
Proof.
  unfold design_matrix. induction values as [|v l IH]; [reflexivity|].
  rewrite sum_over_cons, <- IH. cbn [flat_map app map dot]. ring.
Qed.

Lemma moment_sum (ro re : R -> R -> vec4) (f : vec4 -> R)
  (values : list sample) :
  dot (map f (design_matrix ro re values)) (measured values)
  = sum_over (fun v => f (ro (q2 v) (q3 v)) * q0 v
                       + f (re (q2 v) (q3 v)) * q1 v) values.
Proof.
  unfold design_matrix, measured. induction values as [|v l IH]; [reflexivity|].
  rewrite sum_over_cons, <- IH. cbn [flat_map app map dot]. ring.
Qed.

Lemma normal_equations_perm (ro re : R -> R -> vec4) (l l' : list sample) :
  Permutation l l' ->
  normal_equations (design_matrix ro re l) (measured l)
  = normal_equations (design_matrix ro re l') (measured l').
Proof.
  intros P. unfold normal_equations.
  assert (EN : normal_matrix (design_matrix ro re l)
               = normal_matrix (design_matrix ro re l')).
  { unfold normal_matrix, matmul_4N_N4, transpose, qmap. cbn [q0 q1 q2 q3].
    rewrite !gram_sum. quad_eq; apply sum_over_perm; exact P. }
  assert (Eb : matvec_4N (transpose (design_matrix ro re l)) (measured l)
               = matvec_4N (transpose (design_matrix ro re l')) (measured l')).
  { unfold matvec_4N, transpose, qmap. cbn [q0 q1 q2 q3].
    rewrite !moment_sum. quad_eq; apply sum_over_perm; exact P. }
  now rewrite EN, Eb.
Qed.

(** X11. [on_sky] does not depend on the order in which the samples are
    given, nor on what the property dictionary held before: on a permutation
    of the samples it returns the same Stokes vector, or raises alike. *)
Theorem on_sky_order_irrelevant (evaluate : Offline.props -> mat4)
  (fresh fresh' : Offline.props) (values values' : list sample) :
  Permutation values values' ->
  Offline.on_sky evaluate fresh values = Offline.on_sky evaluate fresh' values'.
Proof.
  intros P. rewrite !offline_on_sky_eq. now apply normal_equations_perm.
Qed.

Lemma on_sky_order_irrelevant_witness :
  Offline.on_sky toy_evaluate (Offline.Props Offline.o 0 0)
    [Quad 1 0.1 0 0; Quad 0.05 0 1 0]
  = Offline.on_sky toy_evaluate (Offline.Props Offline.e 1 1)
      [Quad 0.05 0 1 0; Quad 1 0.1 0 0].
Proof.
  apply (on_sky_order_irrelevant toy_evaluate). apply perm_swap.
Defined.

(** ** The fit function [system] without its state *)

Lemma mod2_SS (k : nat) : (S (S k) mod 2 = k mod 2)%nat.
Proof.
  replace (S (S k)) with (k + 1 * 2)%nat by lia. apply Nat.Div0.mod_add.
Qed.

Lemma mod2_S (k : nat) : (k mod 2 = 0 -> S k mod 2 = 1)%nat.
Proof.
  intros H. pose proof (Nat.div_mod_eq k 2) as E. rewrite H in E.
  replace (S k) with (1 + (k / 2) * 2)%nat by lia.
  rewrite Nat.Div0.mod_add. reflexivity.
Qed.

Section SystemProofs.

Variable master_evaluate : Offline.master_props -> mat4.

Lemma system_body_fold (dth hth dd dr md mr : R)
  (l : list (nat * vec4 * R * R)) (g : Offline.master_props) (acc : list R) :
  system_inv dth hth dd dr md mr g ->
  system_inv dth hth dd dr md mr
    (fst (fold_left (Offline.system_body master_evaluate) l (g, acc)))
  /\ snd (fold_left (Offline.system_body master_evaluate) l (g, acc))
     = acc ++ map (system_term master_evaluate dth hth dd dr md mr) l.
Proof.
  revert g acc. induction l as [|[[[n s] pa] alt] l IH]; intros g acc Hg.
  - cbn. now rewrite app_nil_r.
  - cbn [fold_left map].
    destruct Hg as (H1 & H2 & H3 & H4 & H5 & H6).
    unfold Offline.system_body at 2 4.
    cbn [Offline.master_beam Offline.derotator_theta Offline.derotator_epsilon
         Offline.derotator_phi Offline.master_hwp_theta Offline.m3_theta
         Offline.m3_epsilon Offline.m3_phi Offline.master_pa].
    rewrite H1, H2, H3, H4, H5, H6.
    match goal with
    | |- context [fold_left _ l (?g', ?acc')] =>
        destruct (IH g' acc') as [I1 I2]; [repeat split|]
    end.
    split; [exact I1|]. rewrite I2. unfold system_term at 2.
    now rewrite <- app_assoc.
Qed.

Lemma system_closed (g0 : Offline.master_props) (x : list vec4)
  (dd dr md mr : R) :
  Offline.system master_evaluate g0 x dd dr md mr
  = map (system_term master_evaluate (Offline.derotator_theta g0)
           (Offline.master_hwp_theta g0) dd dr md mr)
      (Offline.zip3 (Offline.enumerate x) (Offline.repeat2 Offline.angles)
         (Offline.repeat2 Offline.altitudes)).
Proof.
  unfold Offline.system, Offline.system_run.
  match goal with
  | |- context [fold_left _ ?l (?g', ?acc)] =>
      destruct (system_body_fold (Offline.derotator_theta g0)
                  (Offline.master_hwp_theta g0) dd dr md mr l g' acc)
        as [_ I2]; [repeat split|]
  end.
  rewrite I2. reflexivity.
Qed.

Lemma system_run_keeps (g : Offline.master_props) (x : list vec4)
  (dd dr md mr : R) :
  system_inv (Offline.derotator_theta g) (Offline.master_hwp_theta g)
    dd dr md mr (fst (Offline.system_run master_evaluate g x dd dr md mr)).
Proof.
  unfold Offline.system_run.
  match goal with
  | |- context [fold_left _ ?l (?g', ?acc)] =>
      destruct (system_body_fold (Offline.derotator_theta g)
                  (Offline.master_hwp_theta g) dd dr md mr l g' acc)
        as [H _]; [repeat split|]
  end.
  exact H.
Qed.

(** X12. [system] is a function of its arguments and of the two properties it
    never writes, the derotator angle and the HWP angle: item [n] of the
    result is the first component of [evaluate() @ x[n]] with beam ['o'] for
    even [n] and ['e'] for odd [n], at the parallactic angle and altitude of
    target [n // 2] and with the parameters [dd], [dr], [md], [mr].  Whatever
    else the dictionaries held before the call has no effect. *)
Theorem system_stateless (g : Offline.master_props) (x : list vec4)
  (dd dr md mr : R) :
  Offline.system master_evaluate g x dd dr md mr
  = map (system_term master_evaluate (Offline.derotator_theta g) (Offline.master_hwp_theta g)
           dd dr md mr)
        (Offline.zip3 (Offline.enumerate x) (Offline.repeat2 Offline.angles)
           (Offline.repeat2 Offline.altitudes))
  /\ forall (b : Offline.beam) (e1 p1 t3 e3 p3 pa : R),
       Offline.system master_evaluate
         (Offline.MasterProps b (Offline.derotator_theta g) e1 p1
            (Offline.master_hwp_theta g) t3 e3 p3 pa) x dd dr md mr
       = Offline.system master_evaluate g x dd dr md mr.
Proof.
  split; [apply system_closed|]. intros. now rewrite !system_closed.
Qed.

(** X13. [system] leaves its four parameters in the dictionaries of the
    derotator and of the third mirror, and never touches the derotator angle
    or the HWP angle. *)
Theorem system_side_effects (g : Offline.master_props) (x : list vec4)
  (dd dr md mr : R) :
  let g' := fst (Offline.system_run master_evaluate g x dd dr md mr) in
  Offline.derotator_epsilon g' = dd /\ Offline.derotator_phi g' = dr
  /\ Offline.m3_epsilon g' = md /\ Offline.m3_phi g' = mr
  /\ Offline.derotator_theta g' = Offline.derotator_theta g
  /\ Offline.master_hwp_theta g' = Offline.master_hwp_theta g.
Proof.
  destruct (system_run_keeps g x dd dr md mr)
    as (H1 & H2 & H3 & H4 & H5 & H6).
  cbv zeta. repeat split; assumption.
Qed.

(** ** [fit_model]: the fit function against the noiseless data *)

Lemma final_stokes_body_fold (dth hth dd dr md mr : R)
  (l : list (R * R * vec4)) (g : Offline.master_props) (acc : list R) :
  system_inv dth hth dd dr md mr g ->
  system_inv dth hth dd dr md mr
    (fst (fold_left (Offline.final_stokes_body master_evaluate) l (g, acc)))
  /\ snd (fold_left (Offline.final_stokes_body master_evaluate) l (g, acc))
     = acc ++ flat_map (final_pair master_evaluate dth hth dd dr md mr) l.
Proof.
  revert g acc. induction l as [|[[pa alt] s] l IH]; intros g acc Hg.
  - cbn. now rewrite app_nil_r.
  - cbn [fold_left flat_map].
    destruct Hg as (H1 & H2 & H3 & H4 & H5 & H6).
    unfold Offline.final_stokes_body at 2 4.
    cbn [Offline.master_beam Offline.derotator_theta Offline.derotator_epsilon
         Offline.derotator_phi Offline.master_hwp_theta Offline.m3_theta
         Offline.m3_epsilon Offline.m3_phi Offline.master_pa].
    rewrite H1, H2, H3, H4, H5, H6.
    match goal with
    | |- context [fold_left _ l (?g', ?acc')] =>
        destruct (IH g' acc') as [I1 I2]; [repeat split|]
    end.
    split; [exact I1|]. rewrite I2. unfold final_pair at 2.
    now rewrite <- app_assoc.
Qed.

Lemma system_terms_pairs (dth hth dd dr md mr : R) (a b : list R)
  (xs : list vec4) (k : nat) :
  (k mod 2 = 0)%nat ->
  map (system_term master_evaluate dth hth dd dr md mr)
    (Offline.zip3 (combine (seq k (length (Offline.repeat2 xs)))
                     (Offline.repeat2 xs))
       (Offline.repeat2 a) (Offline.repeat2 b))
  = flat_map (final_pair master_evaluate dth hth dd dr md mr) (Offline.zip3 a b xs).
Proof.
  revert a b k. induction xs as [|s xs IH]; intros [|pa a] [|alt b] k Hk;
    try reflexivity.
  cbn [Offline.repeat2 flat_map app length seq combine Offline.zip3 map].
  fold (Offline.repeat2 xs). fold (Offline.repeat2 a). fold (Offline.repeat2 b).
  rewrite (IH a b (S (S k))) by (now rewrite mod2_SS).
  unfold system_term at 1 2. unfold final_pair at 2.
  rewrite (mod2_S k Hk), Hk. reflexivity.
Qed.

Lemma final_stokes_closed (g : Offline.master_props) (theta : R) :
  system_inv (Offline.derotator_theta g) theta Offline.derotator_d_i
    Offline.derotator_r_i Offline.m3_d_i Offline.m3_r_i
    (fst (Offline.final_stokes master_evaluate g theta))
  /\ snd (Offline.final_stokes master_evaluate g theta)
     = flat_map (final_pair master_evaluate (Offline.derotator_theta g) theta
                   Offline.derotator_d_i Offline.derotator_r_i Offline.m3_d_i
                   Offline.m3_r_i)
         (Offline.zip3 Offline.angles Offline.altitudes
            (Offline.initial_stokes theta)).
Proof.
  unfold Offline.final_stokes.
  match goal with
  | |- context [fold_left _ ?l (?g', ?acc)] =>
      destruct (final_stokes_body_fold (Offline.derotator_theta g) theta
                  Offline.derotator_d_i Offline.derotator_r_i Offline.m3_d_i
                  Offline.m3_r_i l g' acc) as [I1 I2]; [repeat split|]
  end.
  split; [exact I1|]. rewrite I2. reflexivity.
Qed.

Lemma fit_model_data_closed (g0 : Offline.master_props) (dth theta : R) :
  Offline.derotator_theta g0 = dth ->
  Offline.master_hwp_theta g0 = theta ->
  Offline.system master_evaluate g0
    (Offline.repeat2 (Offline.initial_stokes theta))
    Offline.derotator_d_i Offline.derotator_r_i Offline.m3_d_i Offline.m3_r_i
  = flat_map (final_pair master_evaluate dth theta Offline.derotator_d_i Offline.derotator_r_i
                Offline.m3_d_i Offline.m3_r_i)
      (Offline.zip3 Offline.angles Offline.altitudes
         (Offline.initial_stokes theta)).
Proof.
  intros <- <-. rewrite system_closed. unfold Offline.enumerate.
  apply system_terms_pairs. reflexivity.
Qed.

(** X14. The fit function agrees with the data generator of [fit_model]:
    called on the doubled Stokes list with the original diattenuations and
    retardances, [system] returns exactly the six noiseless intensities
    [stokes_f], beam for beam and target for target; this is so right after
    the data are generated and also after any earlier call of [system] with
    other trial parameters. *)
Theorem fit_model_consistent (g : Offline.master_props) (theta : R) :
  let g1 := fst (Offline.final_stokes master_evaluate g theta) in
  let stokes_f := snd (Offline.final_stokes master_evaluate g theta) in
  let xdata := Offline.repeat2 (Offline.initial_stokes theta) in
  Offline.system master_evaluate g1 xdata Offline.derotator_d_i
    Offline.derotator_r_i Offline.m3_d_i Offline.m3_r_i = stokes_f
  /\ (forall (x' : list vec4) (dd dr md mr : R),
         Offline.system master_evaluate
           (fst (Offline.system_run master_evaluate g1 x' dd dr md mr))
           xdata Offline.derotator_d_i Offline.derotator_r_i Offline.m3_d_i
           Offline.m3_r_i = stokes_f)
  /\ length stokes_f = 6%nat
  /\ length xdata = 6%nat.
Proof.
  intros g1 stokes_f xdata. unfold g1, stokes_f, xdata.
  destruct (final_stokes_closed g theta) as [(H1 & _ & _ & H4 & _ & _) E].
  rewrite E.
  split; [now apply fit_model_data_closed|].
  split.
  - intros x' dd dr md mr.
    destruct (system_run_keeps (fst (Offline.final_stokes master_evaluate g theta))
                x' dd dr md mr) as (K1 & _ & _ & K4 & _ & _).
    apply fit_model_data_closed; congruence.
  - split; reflexivity.
Qed.

End SystemProofs.

(** ** Sky angles *)

Lemma degrees_lt (x y : R) : x < y -> degrees x < degrees y.
Proof.
  intros H. unfold degrees. apply Rmult_lt_compat_r; [|exact H].
  apply Rdiv_lt_0_compat; [lra|apply PI_RGT_0].
Qed.

Lemma degrees_le (x y : R) : x <= y -> degrees x <= degrees y.
Proof.
  intros H. unfold degrees. apply Rmult_le_compat_r; [|exact H].
  apply Rlt_le, Rdiv_lt_0_compat; [lra|apply PI_RGT_0].
Qed.

Lemma degrees_half_PI : degrees (PI / 2) = 90 /\ degrees (- (PI / 2)) = -90.
Proof. unfold degrees. split; field; apply PI_neq0. Qed.

Lemma altitude_argument_bound (k d h : R) :
  -1 <= sin k * sin d + cos k * cos d * cos h <= 1.
Proof.
  pose proof (sin2_cos2 k) as Hk. pose proof (sin2_cos2 d) as Hd.
  pose proof (COS_bound h) as Hh. unfold Rsqr in Hk, Hd.
  set (sk := sin k) in *. set (ck := cos k) in *.
  set (sd := sin d) in *. set (cd := cos d) in *. set (ch := cos h) in *.
  assert (Hc : ch * ch <= 1) by nra.
  assert (Hcd : 0 <= cd * cd) by nra.
  assert (S1 : (sk * sd + ck * cd * ch) * (sk * sd + ck * cd * ch)
               <= sd * sd + cd * cd * (ch * ch)).
  { assert (K : (sk * sk + ck * ck) * (sd * sd + cd * cd * (ch * ch))
                - (sk * sd + ck * cd * ch) * (sk * sd + ck * cd * ch)
                = (sk * (cd * ch) - ck * sd) * (sk * (cd * ch) - ck * sd))
      by ring.
    rewrite Hk in K.
    pose proof (Rle_0_sqr (sk * (cd * ch) - ck * sd)) as P. unfold Rsqr in P.
    lra. }
  assert (S2 : sd * sd + cd * cd * (ch * ch) <= 1) by nra.
  assert (S3 : (sk * sd + ck * cd * ch) * (sk * sd + ck * cd * ch) <= 1) by lra.
  split; nra.
Qed.

(** X15. The sky angles that [track_plot], [system] and [fit_model] compute,
    over exact reals: every parallactic angle that the arctangent formula
    yields lies between -90 and 90 degrees, the right angles included that
    are reached where the denominator vanishes; the altitude lies between -90
    and 90 degrees and the argument handed to [arcsin] lies in [[-1, 1]].
    The angles of the three module-level targets are given by the same
    formulas. *)
Theorem sky_angles_bounded (ha dec a : R) :
  Offline.parallactic ha dec a ->
  (-90 <= a <= 90)
  /\ (-90 <= Offline.altitude ha dec <= 90)
  /\ (-1 <= sin Offline.keck * sin dec
            + cos Offline.keck * cos dec * cos ha <= 1)
  /\ Forall2 (fun rd a' =>
                Offline.parallactic_den (fst rd) (snd rd) <> 0 ->
                Offline.parallactic (fst rd) (snd rd) a')
       (combine Offline.rad Offline.decd) Offline.angles
  /\ Offline.altitudes
     = map (fun rd => Offline.altitude (fst rd) (snd rd))
         (combine Offline.rad Offline.decd).
Proof.
  intros Ha. destruct degrees_half_PI as [E1 E2].
  split; [|split; [|split; [|split]]].
  - destruct Ha as [Hd|Hd Hn|Hd Hn]; [|lra|lra].
    destruct (atan_bound (sin ha / Offline.parallactic_den ha dec)) as [L U].
    rewrite <- E1, <- E2. split; apply degrees_le; lra.
  - unfold Offline.altitude.
    destruct (asin_bound (sin Offline.keck * sin dec
                          + cos Offline.keck * cos dec * cos ha)) as [L U].
    rewrite <- E1, <- E2. split; apply degrees_le; lra.
  - apply altitude_argument_bound.
  - unfold Offline.angles, Offline.rad, Offline.decd, Offline.ra, Offline.dec.
    cbn [map combine fst snd].
    repeat (apply Forall2_cons;
            [intros H; exact (Offline.parallactic_finite _ _ H)|]).
    apply Forall2_nil.
  - reflexivity.
Qed.

Lemma sky_angles_bounded_witness :
  Offline.parallactic (PI / 2) (PI / 2) (-90) /\ -90 <= -90 <= 90.
Proof.
  assert (H : Offline.parallactic (PI / 2) (PI / 2) (-90)).
  { apply Offline.parallactic_minus.
    - unfold Offline.parallactic_den. rewrite cos_PI2. ring.
    - rewrite sin_PI2. lra. }
  split; [exact H|].
  exact (proj1 (sky_angles_bounded (PI / 2) (PI / 2) (-90) H)).
Defined.

(** ** The calibration Stokes vectors *)

(** X16. Every Stokes vector that [fit_model] derives keeps the catalog
    polarization fraction of its target at every HWP angle: intensity 1,
    [Q^2 + U^2 = p^2], no circular part, and a polarized part that does not
    exceed the intensity. *)
Theorem initial_stokes_fraction (theta : R) :
  Forall2 (fun pk s =>
             q0 s = 1 /\ q1 s ^ 2 + q2 s ^ 2 = pk ^ 2 /\ q3 s = 0
             /\ q1 s ^ 2 + q2 s ^ 2 + q3 s ^ 2 <= q0 s ^ 2)
          Offline.p (Offline.initial_stokes theta).
Proof.
  pose proof (sin2_cos2 (2 * theta)) as H. unfold Rsqr in H.
  assert (K : forall pk,
             (pk * cos (2 * theta)) ^ 2 + (pk * sin (2 * theta)) ^ 2 = pk ^ 2).
  { intros pk.
    transitivity (pk ^ 2 * (sin (2 * theta) * sin (2 * theta)
                            + cos (2 * theta) * cos (2 * theta))).
    - ring.
    - rewrite H. ring. }
  unfold Offline.initial_stokes, Offline.p. cbn [map combine].
  repeat constructor; cbn [q0 q1 q2 q3]; try (apply K); rewrite ?K; lra.
Qed.

(** ** The abscissas of [plot_wollaston] *)

(** X17. For an angle of [np.arange(0, 2 pi, 0.001)], that is in [[0, 2 pi)],
    the abscissa that [plot_wollaston] plots lies in [[0, 360)], the window of
    the plot, in both variants; in the pyMuellerMat variants it is also the
    value left in ['theta'], and the beam is left on ['e']. *)
Theorem plot_wollaston_abscissa (evaluate : Offline.props -> mat4)
  (sys_mm : Offline.props) (stokes : vec4) (angle : R) :
  0 <= angle < 2 * PI ->
  (0 <= fst (Manual.plot_wollaston_row stokes angle) < 360)
  /\ (0 <= fst (snd (Offline.plot_wollaston_body evaluate stokes sys_mm angle))
      < 360)
  /\ Offline.HalfwaveRetarder_theta
       (fst (Offline.plot_wollaston_body evaluate stokes sys_mm angle))
     = fst (snd (Offline.plot_wollaston_body evaluate stokes sys_mm angle))
  /\ Offline.WollastonPrism_beam
       (fst (Offline.plot_wollaston_body evaluate stokes sys_mm angle))
     = Offline.e.
Proof.
  intros [L U].
  assert (B : 0 <= degrees angle < 360).
  { replace 0 with (degrees 0) by (unfold degrees; ring).
    replace 360 with (degrees (2 * PI))
      by (unfold degrees; field; apply PI_neq0).
    split; [now apply degrees_le|now apply degrees_lt]. }
  repeat split; try apply B.
Qed.

Lemma plot_wollaston_abscissa_witness :
  0 <= 1 < 2 * PI
  /\ 0 <= fst (Manual.plot_wollaston_row round_trip_stokes 1) < 360.
Proof.
  assert (H : 0 <= 1 < 2 * PI) by (pose proof PI_RGT_0; pose proof PI2_3_2; lra).
  split; [exact H|].
  exact (proj1 (plot_wollaston_abscissa toy_evaluate (Offline.Props Offline.o 0 0)
                  round_trip_stokes 1 H)).
Defined.

